(** * Social listening on Reddit: the analysis pipeline

    A shallow embedding of [social-listening-reddit-python-nltk.py]
    (fetching of comments, CSV export, sentiment/topic/brand analysis,
    ranking and the final summary) together with the properties of the
    pipeline that the specification states.

    Conventions of the embedding.
    - A Python [str] is a [string] of 7-bit ASCII characters; character
      codes from 128 on are neither letters nor white space here.
    - A JSON object read with [in], [.get] and [[]] is a [gmap string string];
      a [Counter] and a [defaultdict(list)] keep their insertion order, which
      [most_common] and [.items()] expose, so they are association lists.
    - The VADER compound score is a decimal number with four places; it is
      a rational [Q], and the literals [0.05] and [-0.05] are the
      rationals of that value.
    - An uncaught Python exception is the [Raise] branch of [result]. *)

From Stdlib Require Import ZArith QArith Ascii Permutation Sorted Lia.
From stdpp Require Import base option list gmap strings.

Local Open Scope nat_scope.

(** ** Python string primitives *)

Module Str.

(** [c.isspace()] for an ASCII character: TAB, LF, VT, FF, CR, the four
    separators FS..US and the space. *)
Definition isspace (c : ascii) : bool :=
  let n := nat_of_ascii c in
  ((9 <=? n) && (n <=? 13)) || ((28 <=? n) && (n <=? 32)).

Definition isupper (c : ascii) : bool :=
  let n := nat_of_ascii c in (65 <=? n) && (n <=? 90).

Definition islower (c : ascii) : bool :=
  let n := nat_of_ascii c in (97 <=? n) && (n <=? 122).

Definition isalpha_char (c : ascii) : bool := isupper c || islower c.

Definition lower_char (c : ascii) : ascii :=
  if isupper c then ascii_of_nat (nat_of_ascii c + 32) else c.

(** [s.lower()] *)
Fixpoint lower (s : string) : string :=
  match s with
  | EmptyString => EmptyString
  | String c s' => String (lower_char c) (lower s')
  end.

Fixpoint all_alpha (s : string) : bool :=
  match s with
  | EmptyString => true
  | String c s' => isalpha_char c && all_alpha s'
  end.

(** [s.isalpha()]: at least one character, and every character a letter. *)
Definition isalpha (s : string) : bool :=
  match s with
  | EmptyString => false
  | String _ _ => all_alpha s
  end.

Definition flush (tok : string) : list string :=
  match tok with
  | EmptyString => []
  | String _ _ => [tok]
  end.

(** The scan behind [s.split()]: [tok] is the token read so far. *)
Fixpoint split_from (tok : string) (s : string) : list string :=
  match s with
  | EmptyString => flush tok
  | String c s' =>
      if isspace c then flush tok ++ split_from EmptyString s'
      else split_from (tok +:+ String c EmptyString) s'
  end.

(** [s.split()]: the maximal runs of non-space characters, in order. *)
Definition split (s : string) : list string := split_from EmptyString s.

(** Some character of [s] is white space. *)
Fixpoint has_space (s : string) : bool :=
  match s with
  | EmptyString => false
  | String c s' => isspace c || has_space s'
  end.

Definition upper_char (c : ascii) : ascii :=
  if islower c then ascii_of_nat (nat_of_ascii c - 32) else c.

(** [s.capitalize()] *)
Definition capitalize (s : string) : string :=
  match s with
  | EmptyString => EmptyString
  | String c s' => String (upper_char c) (lower s')
  end.

(** [sep.join(l)] *)
Fixpoint join (sep : string) (l : list string) : string :=
  match l with
  | [] => EmptyString
  | [w] => w
  | w :: l' => w +:+ sep +:+ join sep l'
  end.

(** [s.startswith(p)] *)
Fixpoint startswith (p s : string) : bool :=
  match p, s with
  | EmptyString, _ => true
  | String _ _, EmptyString => false
  | String a p', String b s' => if decide (a = b) then startswith p' s' else false
  end.

(** [p in s]: [p] occurs in [s] as a contiguous substring. *)
Fixpoint contains (p s : string) : bool :=
  startswith p s ||
  match s with
  | EmptyString => false
  | String _ s' => contains p s'
  end.

End Str.

(** ** Exceptions *)

Inductive exn : Type :=
| KeyError (key : string)
| IndexError
| ValueError.

Inductive result (A : Type) : Type :=
| Ok (a : A)
| Raise (e : exn).
Arguments Ok {A} a.
Arguments Raise {A} e.

Definition bind {A B : Type} (r : result A) (k : A → result B) : result B :=
  match r with
  | Ok a => k a
  | Raise e => Raise e
  end.

Notation "'let!' x := r 'in' k" := (bind r (fun x => k))
  (at level 10, x name, r at level 100, k at level 200).
Notation "'let!' ' p := r 'in' k" := (bind r (fun p => k))
  (at level 10, p strict pattern, r at level 100, k at level 200).

(** [d[key]] on a JSON object *)
Definition getitem (d : gmap string string) (key : string) : result string :=
  match d !! key with
  | Some v => Ok v
  | None => Raise (KeyError key)
  end.

(** [d.get(key, dflt)] *)
Definition get_default (d : gmap string string) (key dflt : string) : string :=
  default dflt (d !! key).

(** ** Counters and grouped lists, in insertion order *)

Definition Counter : Type := list (string * nat).

(** [c[k]]: a key that is absent counts zero. *)
Fixpoint counter_get (k : string) (c : Counter) : nat :=
  match c with
  | [] => 0
  | (k', n) :: c' => if decide (k = k') then n else counter_get k c'
  end.

(** [c[k] += 1] *)
Fixpoint counter_incr (k : string) (c : Counter) : Counter :=
  match c with
  | [] => [(k, 1)]
  | (k', n) :: c' =>
      if decide (k = k') then (k', n + 1) :: c' else (k', n) :: counter_incr k c'
  end.

(** [Counter(iterable)] *)
Definition counter_of (keys : list string) : Counter :=
  fold_left (fun c k => counter_incr k c) keys [].

Definition Grouped : Type := list (string * list string).

(** [g[k]] read without inserting: an absent key holds the empty list. *)
Fixpoint grouped_get (k : string) (g : Grouped) : list string :=
  match g with
  | [] => []
  | (k', l) :: g' => if decide (k = k') then l else grouped_get k g'
  end.

(** [g[k].append(v)] on a [defaultdict(list)] *)
Fixpoint grouped_append (k v : string) (g : Grouped) : Grouped :=
  match g with
  | [] => [(k, [v])]
  | (k', l) :: g' =>
      if decide (k = k') then (k', l ++ [v]) :: g' else (k', l) :: grouped_append k v g'
  end.

(** ** Stable descending sort

    [list.sort(key=..., reverse=True)] keeps the input order of entries with
    equal keys.  [below x y] reads: the key of [x] is strictly less than the
    key of [y]. *)

Section Sort.
Context {A : Type} (below : A → A → bool).

Fixpoint insert_desc (x : A) (l : list A) : list A :=
  match l with
  | [] => [x]
  | y :: l' => if below x y then y :: insert_desc x l' else x :: y :: l'
  end.

Fixpoint sort_desc (l : list A) : list A :=
  match l with
  | [] => []
  | x :: l' => insert_desc x (sort_desc l')
  end.
End Sort.

(** The order of [key=lambda x: x[1]] on the items of a counter. *)
Definition by_count_below (x y : string * nat) : bool := x.2 <? y.2.

(** [c.most_common(n)]: the [n] largest counts, ties in insertion order. *)
Definition most_common (n : nat) (c : Counter) : Counter :=
  take n (sort_desc by_count_below c).

(** ** Comparison of scores *)

(** [x < y] on scores *)
Definition Qltb (x y : Q) : bool := negb (Qle_bool y x).

(** The order of a sort by a rational key. *)
Definition key_below {A : Type} (key : A → Q) (x y : A) : bool :=
  Qltb (key x) (key y).

(** Later entries never have a larger key than earlier ones. *)
Definition descending {A : Type} (key : A → Q) (l : list A) : Prop :=
  StronglySorted (fun x y => (key y <= key x)%Q) l.

(** The entries of [l] whose key equals [k], in the order of [l]. *)
Definition with_key {A : Type} (key : A → Q) (k : Q) (l : list A) : list A :=
  List.filter (fun x => Qeq_bool (key x) k) l.

(** ** Records fetched from Reddit *)

(** One entry of a comment listing: the JSON object under ["data"] and the
    ["subreddit"] key that the fetch attaches to the entry itself. *)
Record comment : Type := Comment {
  data : gmap string string;
  subreddit : option string
}.

(** A search hit; the listing carries both fields for every hit. *)
Record submission : Type := Submission {
  submission_subreddit : string;
  submission_id : string
}.

(** The answer to one comment request: its status and, when the status is
    200, the children of the comment listing. *)
Record response : Type := Response {
  status_code : Z;
  children : list comment
}.

(** ** What the program prints, one constructor per [print] statement *)

Inductive line : Type :=
| Text (s : string)              (* a literal, without its leading line break *)
| NumberOfComments (n : nat)
| SavedTo (filename : string)
| TopicHeader (topic : string) (mentions : nat)
| TopicItem (body : string)
| TotalComments (n : nat)
| TotalSubreddits (n : nat)
| Mentions (name : string) (count : nat)
| UserComments (user : string) (count : nat)
| ScoreExample (sentiment : Q) (body link : string).

(** ** [fetch_ceiling_fan_comments]

    The requests are answered by the environment: the status of the search
    request, and for each submission of the search result the response to
    its comment request. *)

Definition attach_subreddit (name : string) (c : comment) : comment :=
  {| data := data c; subreddit := Some name |}.

Fixpoint fetch_loop (submissions : list (submission * response))
    (all_comments : list comment) (subreddit_counts : Counter)
    : list comment * Counter :=
  match submissions with
  | [] => (all_comments, subreddit_counts)
  | (sub, comments_response) :: rest =>
      let name := submission_subreddit sub in
      let subreddit_counts := counter_incr name subreddit_counts in
      if decide (status_code comments_response = 200%Z) then
        let comments := map (attach_subreddit name) (children comments_response) in
        fetch_loop rest (all_comments ++ comments) subreddit_counts
      else fetch_loop rest all_comments subreddit_counts
  end.

(** The second pass, over the comments collected. *)
Definition recount (all_comments : list comment) (subreddit_counts : Counter) : Counter :=
  fold_left
    (fun counts c =>
       match subreddit c with
       | Some name => counter_incr name counts
       | None => counts
       end)
    all_comments subreddit_counts.

Record fetched : Type := Fetched {
  fetched_comments : option (list comment);
  fetched_counts : option Counter;
  fetched_stdout : list line
}.

Definition fetch_ceiling_fan_comments (submissions_status : Z)
    (submissions : list (submission * response)) : fetched :=
  if decide (submissions_status = 200%Z) then
    let '(all_comments, subreddit_counts) := fetch_loop submissions [] [] in
    Fetched (Some all_comments) (Some (recount all_comments subreddit_counts)) []
  else Fetched None None [Text "Failed to fetch submissions."].

(** ** [save_comments_to_csv] *)

Definition csv_header : list string :=
  ["Author"; "Comment Body"; "Subreddit"; "Permalink"].

Definition csv_row (c : comment) : list string :=
  [ get_default (data c) "author" "N/A";
    get_default (data c) "body" "N/A";
    default "N/A" (subreddit c);
    "https://reddit.com" +:+ get_default (data c) "permalink" "" ].

Fixpoint csv_rows (comments : list comment) : list (list string) :=
  match comments with
  | [] => []
  | c :: rest =>
      match data c !! "body" with
      | Some _ => csv_row c :: csv_rows rest
      | None => csv_rows rest
      end
  end.

(** The rows written to the file, and the line printed afterwards. *)
Definition save_comments_to_csv (comments : list comment) (filename : string)
    : list (list string) * list line :=
  (csv_header :: csv_rows comments, [SavedTo filename]).

(** ** [analyze_comments] *)

Definition BRANDS : list string :=
  ["hunter"; "hampton bay"; "westinghouse"; "bunnings"; "big ass fans"; "minka"].

Definition topics : list string :=
  [ "price"; "installation"; "wiring"; "brands"; "likes"; "dislikes";
    "quality"; "design"; "noise"; "blades"; "remote"; "cost"; "light";
    "cheap"; "expensive"; "efficiency"; "maintenance"; "airflow" ].

(** The dictionary [{"positive": 0, "neutral": 0, "negative": 0}]; its three
    keys are fixed, so it is a record of three counts. *)
Record sentiment_counts : Type := SentimentCounts {
  positive : nat;
  neutral : nat;
  negative : nat
}.

(** An entry of [scored_comments]: [(sentiment, body, permalink)]. *)
Definition scored : Type := Q * string * string.

Definition score (x : scored) : Q := x.1.1.

(** [key=lambda x: x[0]] as the order of the sort *)
Definition score_below : scored → scored → bool := key_below score.

(** The local variables of [analyze_comments] that the loop updates. *)
Record analysis : Type := Analysis {
  sentiment_data : sentiment_counts;
  topic_counts : Counter;
  brand_counts : Counter;
  topic_comments : Grouped;
  all_words : list string;
  positive_words : list string;
  negative_words : list string;
  scored_comments : list scored
}.

Definition analysis_start : analysis :=
  Analysis (SentimentCounts 0 0 0) [] [] [] [] [] [] [].

(** What [analyze_comments] returns: the first seven fields of [totals] and
    the two slices of the sorted [scored_comments]. *)
Record analysis_result : Type := AnalysisResult {
  totals : analysis;
  most_positive : list scored;
  most_negative : list scored
}.

(** [keyword in body.lower()] *)
Definition mentions (keyword body : string) : bool :=
  Str.contains keyword (Str.lower body).

(** The body of the loop over [topics]. *)
Definition tag_topic (body : string) (acc : Counter * Grouped) (topic : string)
    : Counter * Grouped :=
  if mentions topic body
  then (counter_incr topic acc.1, grouped_append topic body acc.2)
  else acc.

Definition tag_topics (body : string) (counts : Counter) (grouped : Grouped)
    : Counter * Grouped :=
  fold_left (tag_topic body) topics (counts, grouped).

(** The body of the loop over [BRANDS]. *)
Definition tag_brand (body : string) (counts : Counter) (brand : string) : Counter :=
  if mentions brand body then counter_incr brand counts else counts.

Definition tag_brands (body : string) (counts : Counter) : Counter :=
  fold_left (tag_brand body) BRANDS counts.

Section Analysis.

(** [vader.polarity_scores(body)["compound"]] *)
Variable polarity_compound : string → Q.
(** [set(stopwords.words("english"))] *)
Variable stop_words : gset string.

(** The list comprehension that builds [words]. *)
Definition retained_words (body : string) : list string :=
  map Str.lower
    (List.filter
       (fun word => Str.isalpha word && negb (bool_decide (Str.lower word ∈ stop_words)))
       (Str.split body)).

(** The body of the [for comment in comments] loop. *)
Definition analyze_comment (st : analysis) (c : comment) : result analysis :=
  match data c !! "body" with
  | None => Ok st
  | Some body =>
      let! path := getitem (data c) "permalink" in
      let permalink := "https://reddit.com" +:+ path in
      let sentiment := polarity_compound body in
      let scored_comments := scored_comments st ++ [(sentiment, body, permalink)] in
      let '(sentiment_data, positive_words, negative_words) :=
        let sd := sentiment_data st in
        if Qltb 0.05 sentiment then
          (SentimentCounts (positive sd + 1) (neutral sd) (negative sd),
           positive_words st ++ Str.split body,
           negative_words st)
        else if Qltb sentiment (-0.05) then
          (SentimentCounts (positive sd) (neutral sd) (negative sd + 1),
           positive_words st,
           negative_words st ++ Str.split body)
        else
          (SentimentCounts (positive sd) (neutral sd + 1) (negative sd),
           positive_words st,
           negative_words st) in
      let words := retained_words body in
      let all_words := all_words st ++ words in
      let '(topic_counts, topic_comments) :=
        tag_topics body (topic_counts st) (topic_comments st) in
      let brand_counts := tag_brands body (brand_counts st) in
      Ok (Analysis sentiment_data topic_counts brand_counts topic_comments
            all_words positive_words negative_words scored_comments)
  end.

Fixpoint analyze_loop (comments : list comment) (st : analysis) : result analysis :=
  match comments with
  | [] => Ok st
  | c :: rest =>
      let! st' := analyze_comment st c in
      analyze_loop rest st'
  end.

(** The sort and the two slices [[:10]] and [[-10:]]. *)
Definition rank (st : analysis) : analysis_result :=
  let sorted := sort_desc score_below (scored_comments st) in
  AnalysisResult st (take 10 sorted) (drop (length sorted - 10) sorted).

Definition analyze_comments (comments : list comment) : result analysis_result :=
  let! st := analyze_loop comments analysis_start in
  Ok (rank st).

End Analysis.

(** ** [print_comments_grouped_by_topic] *)

Definition print_comments_grouped_by_topic (topic_comments : Grouped) : list line :=
  Text "--- Comments Grouped by Topic ---" ::
  flat_map
    (fun '(topic, comments) =>
       TopicHeader (Str.capitalize topic) (length comments) ::
       map TopicItem (take 5 comments))
    topic_comments.

(** ** [visualize_results] *)

(** What is handed to the plotting libraries, one constructor per [plt.show()]. *)
Inductive figure : Type :=
| PieChart (values : sentiment_counts)
| WordCloudFigure (text : string)
| WordCloudPair (positive_text negative_text : string)
| BarChart (title : string) (labels : list string) (heights : list nat).

(** Unpacking the transposed [pairs] into two names, as [words, counts] is
    read off [word_freq]: it fails when there is no pair. *)
Definition unzip_pairs {A B : Type} (pairs : list (A * B)) : result (list A * list B) :=
  match pairs with
  | [] => Raise ValueError
  | _ :: _ => Ok (map fst pairs, map snd pairs)
  end.

Section Visualize.

(** The plotting libraries: drawing a figure returns or raises. *)
Variable show : figure → result unit.

Definition visualize_results (sentiment_data : sentiment_counts)
    (subreddit_counts : Counter) (all_words positive_words negative_words : list string)
    (brand_counts : Counter) : result unit :=
  let! _ := show (PieChart sentiment_data) in
  let! _ := show (WordCloudFigure (Str.join " " all_words)) in
  let! _ := show (WordCloudPair (Str.join " " positive_words) (Str.join " " negative_words)) in
  let word_freq := most_common 20 (counter_of all_words) in
  let! '(words, counts) := unzip_pairs word_freq in
  let! _ := show (BarChart "Top 20 Word Frequency" words counts) in
  let sorted_subreddits := sort_desc by_count_below subreddit_counts in
  let! '(subreddits, counts) := unzip_pairs sorted_subreddits in
  let! _ := show (BarChart "Subreddit Activity" subreddits counts) in
  let sorted_brands := sort_desc by_count_below brand_counts in
  let! '(brands, brand_counts_values) := unzip_pairs sorted_brands in
  show (BarChart "Brand Mentions" brands brand_counts_values).

End Visualize.

(** ** [generate_final_summary] *)

(** The lines a procedure printed and the exception that ended it, if any. *)
Record printed : Type := Printed {
  printed_lines : list line;
  printed_raised : option exn
}.

(** The authors counted by [user_activity], in the order of the comments. *)
Definition authors (comments : list comment) : list string :=
  omap (fun c => data c !! "author") comments.

Definition example_of (x : scored) : line := ScoreExample x.1.1 x.1.2 x.2.

Definition generate_final_summary (comments : list comment)
    (subreddit_counts brand_counts topic_counts : Counter)
    (most_positive most_negative : list scored) : printed :=
  let user_activity := counter_of (authors comments) in
  let top_users := most_common 5 user_activity in
  let head_lines :=
    [ Text "--- Final Summary ---";
      TotalComments (length comments);
      TotalSubreddits (length subreddit_counts);
      Text "Most Mentioned Brands:" ] ++
    map (fun '(brand, count) => Mentions brand count) (most_common 5 brand_counts) ++
    [ Text "Most Frequent Topics:" ] ++
    map (fun '(topic, count) => Mentions topic count) (most_common 5 topic_counts) ++
    [ Text "Top Users (Potential Influencers):" ] ++
    map (fun '(user, count) => UserComments user count) top_users ++
    [ Text "Top Positive Comment Example:" ] in
  match most_positive with
  | [] => Printed head_lines (Some IndexError)
  | top :: _ =>
      let lines := head_lines ++ [example_of top; Text "Top Negative Comment Example:"] in
      match most_negative with
      | [] => Printed lines (Some IndexError)
      | bottom :: _ => Printed (lines ++ [example_of bottom]) None
      end
  end.

(** ** The main program *)

(** One run: what was printed, the rows of the CSV file if it was written,
    and the exception that ended the run, if any. *)
Record run : Type := Run {
  stdout : list line;
  csv_file : option (list (list string));
  failure : option exn
}.

Section Main.

Variable polarity_compound : string → Q.
Variable stop_words : gset string.
Variable show : figure → result unit.

(** The steps of the main block once the comments are fetched and the
    list is not empty. *)
Definition report (comments : list comment) (subreddit_counts : Counter) : run :=
  let out := [NumberOfComments (length comments)] in
  let '(rows, saved) := save_comments_to_csv comments "fetched_comments.csv" in
  let out := out ++ saved in
  match analyze_comments polarity_compound stop_words comments with
  | Raise e => Run out (Some rows) (Some e)
  | Ok r =>
      let t := totals r in
      let out := out ++ print_comments_grouped_by_topic (topic_comments t) in
      match visualize_results show (sentiment_data t) subreddit_counts
              (all_words t) (positive_words t) (negative_words t) (brand_counts t) with
      | Raise e => Run out (Some rows) (Some e)
      | Ok _ =>
          let summary :=
            generate_final_summary comments subreddit_counts (brand_counts t)
              (topic_counts t) (most_positive r) (most_negative r) in
          Run (out ++ printed_lines summary) (Some rows) (printed_raised summary)
      end
  end.

(** [token] is what [get_oauth_token] returned; the two other arguments
    are the answers of Reddit, as for [fetch_ceiling_fan_comments]. *)
Definition main (token : option string) (submissions_status : Z)
    (submissions : list (submission * response)) : run :=
  match token with
  | Some (String _ _) =>
      let f := fetch_ceiling_fan_comments submissions_status submissions in
      match fetched_comments f, fetched_counts f with
      | Some (c :: rest), Some subreddit_counts =>
          let r := report (c :: rest) subreddit_counts in
          Run (fetched_stdout f ++ stdout r) (csv_file r) (failure r)
      | _, _ => Run (fetched_stdout f) None None
      end
  | _ => Run [] None None
  end.

End Main.

(** ** Predicates on records *)

(** The test ["body" in comment["data"]]. *)
Definition has_body (c : comment) : bool :=
  match data c !! "body" with
  | Some _ => true
  | None => false
  end.

(** A body that is present and is not the empty string. *)
Definition has_nonempty_body (c : comment) : bool :=
  match data c !! "body" with
  | Some (String _ _) => true
  | _ => false
  end.

Definition total (sd : sentiment_counts) : nat :=
  positive sd + neutral sd + negative sd.

(** One of the three counters is one higher in [sd'], the two others are as
    in [sd]. *)
Definition one_bucket_more (sd sd' : sentiment_counts) : Prop :=
  (positive sd' = positive sd + 1 ∧ neutral sd' = neutral sd ∧ negative sd' = negative sd) ∨
  (positive sd' = positive sd ∧ neutral sd' = neutral sd + 1 ∧ negative sd' = negative sd) ∨
  (positive sd' = positive sd ∧ neutral sd' = neutral sd ∧ negative sd' = negative sd + 1).

(** The loop over [keys] counts the keyword [t] for [body]: [t] is one of
    the keys and the body mentions it. *)
Definition hit (body : string) (keys : list string) (t : string) : bool :=
  bool_decide (t ∈ keys) && mentions t body.

(** The comments that one answered request adds to [all_comments]. *)
Definition kept (p : submission * response) : list comment :=
  if decide (status_code p.2 = 200%Z)
  then map (attach_subreddit (submission_subreddit p.1)) (children p.2)
  else [].

(** The submissions of the search result that belong to [name]. *)
Definition submissions_in (name : string) (submissions : list (submission * response)) : nat :=
  length (List.filter (fun p => bool_decide (submission_subreddit p.1 = name)) submissions).

(** The collected comments that carry the tag [name]. *)
Definition comments_in (name : string) (comments : list comment) : nat :=
  length (List.filter (fun c => bool_decide (subreddit c = Some name)) comments).

(** ** The run seen from its input *)

(** The bodies of the records that have one, in the order of the input. *)
Definition bodies (comments : list comment) : list string :=
  omap (fun c => data c !! "body") comments.

(** The entry that a record with a body and a permalink adds to
    [scored_comments]. *)
Definition scored_entry (polarity : string → Q) (c : comment) : option scored :=
  match data c !! "body", data c !! "permalink" with
  | Some body, Some path => Some (polarity body, body, "https://reddit.com" +:+ path)
  | _, _ => None
  end.

(** A record that the analysis cannot get past: a body and no permalink. *)
Definition lacks_permalink (c : comment) : bool :=
  match data c !! "body", data c !! "permalink" with
  | Some _, None => true
  | _, _ => false
  end.

(** [sentiment > 0.05] and [sentiment < -0.05] for the score of a body *)
Definition scores_positive (polarity : string → Q) (body : string) : bool :=
  Qltb 0.05 (polarity body).

Definition scores_negative (polarity : string → Q) (body : string) : bool :=
  Qltb (polarity body) (-0.05).

Definition scores_neutral (polarity : string → Q) (body : string) : bool :=
  negb (scores_positive polarity body) && negb (scores_negative polarity body).

(** [list(c.keys())] and [sum(c.values())] *)
Definition counter_keys (c : Counter) : list string := map fst c.

Definition counter_total (c : Counter) : nat := foldr (fun p n => p.2 + n) 0 c.

(** A counter as [c[k] += 1] builds it: no key twice, no count of zero. *)
Definition counter_wf (c : Counter) : Prop :=
  NoDup (counter_keys c) ∧ Forall (fun p => 1 ≤ p.2) c.

(** The count of an item as a rational sort key. *)
Definition count_key (p : string * nat) : Q := inject_Z (Z.of_nat p.2).

(** The number of records whose author is [user]. *)
Definition comments_by (user : string) (comments : list comment) : nat :=
  length (List.filter (fun a => bool_decide (a = user)) (authors comments)).

(** A token as [split] yields it: not empty and free of white space. *)
Definition is_token (w : string) : Prop :=
  w ≠ EmptyString ∧ Str.has_space w = false.

(** [list(g.keys())] *)
Definition grouped_keys (g : Grouped) : list string := map fst g.

(** A [defaultdict(list)] as [g[k].append(v)] builds it: no key twice, no
    empty list. *)
Definition grouped_wf (g : Grouped) : Prop :=
  NoDup (grouped_keys g) ∧ Forall (fun p => p.2 ≠ []) g.

(** ** [get_oauth_token]

    The token request is answered by the environment: [requests.post]
    raises, or it returns a response with a status and a body, which is a
    JSON object or no JSON at all. *)

Inductive post_outcome : Type :=
| PostRaised (message : string)
| PostAnswered (status : Z) (json : option (gmap string string)).

(** What the [except Exception] clause catches. *)
Inductive auth_error : Type :=
| Transport (message : string)      (* raised by [requests.post] *)
| NoJson                            (* raised by [response.json()] *)
| MissingKey (key : string).        (* raised by [...["access_token"]] *)

(** The lines that [get_oauth_token] prints. *)
Inductive auth_line : Type :=
| AuthSucceeded
| AuthFailed
| AuthJson (json : gmap string string)
| AuthError (e : auth_error).

(** The value returned and the lines printed. *)
Definition get_oauth_token (outcome : post_outcome) : option string * list auth_line :=
  match outcome with
  | PostRaised message => (None, [AuthError (Transport message)])
  | PostAnswered status json =>
      if decide (status = 200%Z) then
        match json with
        | None => (None, [AuthSucceeded; AuthError NoJson])
        | Some object =>
            match object !! "access_token" with
            | Some token => (Some token, [AuthSucceeded])
            | None => (None, [AuthSucceeded; AuthError (MissingKey "access_token")])
            end
        end
      else
        match json with
        | None => (None, [AuthFailed; AuthError NoJson])
        | Some object => (None, [AuthFailed; AuthJson object])
        end
  end.

(** ** Sample data for the examples *)

Module Sample.

(** A three-word lexicon in the place of VADER. *)
Definition polarity (body : string) : Q :=
  if Str.contains "love" (Str.lower body) then 0.6369%Q
  else if Str.contains "hate" (Str.lower body) then (-0.5719)%Q
  else if Str.contains "fine" (Str.lower body) then 0.05%Q
  else 0%Q.

Definition stop_words : gset string := {[ "the"; "it"; "i"; "is" ]}.

Definition reply (author body path : string) : comment :=
  Comment {[ "author" := author; "body" := body; "permalink" := path ]} None.

(** A "load more comments" entry of a listing: it has no body. *)
Definition more : comment :=
  Comment {[ "count" := "12"; "name" := "t1_more" ]} None.

Definition praise : comment := reply "ann" "Great fan, love it!" "/r/fans/c/1".
Definition complaint : comment := reply "bob" "Terrible noise, hate it." "/r/fans/c/2".
Definition shrug : comment := reply "cho" "It's okay I guess." "/r/fans/c/3".

Definition thread : list comment := [praise; complaint; shrug].

Definition owner : comment := reply "ann" "My Hunter fan is fine" "/r/fans/c/4".

(** A search result of three submissions; the second comment request fails. *)
Definition search_result : list (submission * response) :=
  [ (Submission "fans" "s1", Response 200 [praise; more]);
    (Submission "homeimprovement" "s2", Response 503 []);
    (Submission "fans" "s3", Response 200 [complaint; owner]) ].

Definition posts (id : string) : list comment :=
  [ reply "ann" "Great fan, love it!" ("/r/fans/c/" +:+ id +:+ "1");
    reply "bob" "Terrible noise, hate it." ("/r/fans/c/" +:+ id +:+ "2");
    reply "cho" "It's okay I guess." ("/r/fans/c/" +:+ id +:+ "3") ].

(** Twenty-one comments, in seven rounds of three. *)
Definition long_thread : list comment :=
  flat_map posts ["a"; "b"; "c"; "d"; "e"; "f"; "g"].

(** The state of the loop after [long_thread]. *)
Definition long_thread_state : analysis :=
  Eval vm_compute in
    match analyze_loop polarity stop_words long_thread analysis_start with
    | Ok st => st
    | Raise _ => analysis_start
    end.

(** Every plot is drawn. *)
Definition show (f : figure) : result unit := Ok ().

End Sample.

(** ** Sample runs for the further properties *)

Module Cases.

(** What the analysis returns for [Sample.thread]. *)
Definition thread_result : analysis_result :=
  Eval vm_compute in
    match analyze_comments Sample.polarity Sample.stop_words Sample.thread with
    | Ok r => r
    | Raise _ => rank analysis_start
    end.

(** The thread with a comment that mentions a brand. *)
Definition owners_thread : list comment := Sample.thread ++ [Sample.owner].

Definition owners_result : analysis_result :=
  Eval vm_compute in
    match analyze_comments Sample.polarity Sample.stop_words owners_thread with
    | Ok r => r
    | Raise _ => rank analysis_start
    end.

End Cases.

(** * Properties *)

(** ** Scores *)

Lemma Qltb_lt (x y : Q) : Qltb x y = true ↔ (x < y)%Q.
Proof.
  unfold Qltb. rewrite negb_true_iff. split.
  - intros H. apply Qnot_le_lt. intros Hle.
    apply Qle_bool_iff in Hle. congruence.
  - intros H. destruct (Qle_bool y x) eqn:E; [|done].
    apply Qle_bool_iff in E. exfalso. eapply Qlt_not_le; eauto.
Qed.

Lemma Qltb_ge (x y : Q) : Qltb x y = false ↔ (y <= x)%Q.
Proof.
  unfold Qltb. rewrite negb_false_iff. apply Qle_bool_iff.
Qed.

(** ** Counters and grouped lists *)

Lemma counter_get_incr (k k' : string) (c : Counter) :
  counter_get k (counter_incr k' c) =
  counter_get k c + (if decide (k = k') then 1 else 0).
Proof.
  induction c as [|[k0 n] c IH]; simpl.
  - repeat case_decide; simplify_eq; lia.
  - repeat (case_decide; simpl; simplify_eq); lia.
Qed.

Lemma grouped_get_append (k k' v : string) (g : Grouped) :
  grouped_get k (grouped_append k' v g) =
  grouped_get k g ++ (if decide (k = k') then [v] else []).
Proof.
  induction g as [|[k0 l] g IH]; simpl.
  - repeat case_decide; simplify_eq; done.
  - destruct (decide (k' = k0)) as [->|Hne]; simpl;
      destruct (decide (k = k0)) as [->|Hne']; rewrite ?IH;
      repeat case_decide; simplify_eq; rewrite ?app_nil_r; done.
Qed.

(** ** Substrings *)

Lemma startswith_spec (p s : string) :
  Str.startswith p s = true ↔ ∃ post, s = p +:+ post.
Proof.
  revert s. induction p as [|a p IH]; intros s; simpl.
  - split; [intros _; by exists s | done].
  - destruct s as [|b s].
    + split; [done | intros [post H]; discriminate].
    + case_decide as Hab.
      * subst b. rewrite IH. split.
        -- intros [post ->]. by exists post.
        -- intros [post H]. injection H as H. by exists post.
      * split; [done | intros [post H]]. injection H as H1 H2. done.
Qed.

Lemma contains_spec (p s : string) :
  Str.contains p s = true ↔ ∃ pre post, s = pre +:+ p +:+ post.
Proof.
  induction s as [|c s IH]; simpl.
  - rewrite orb_false_r, startswith_spec. split.
    + intros [post H]. by exists EmptyString, post.
    + intros [[|a pre] [post H]]; [by exists post | discriminate].
  - rewrite orb_true_iff, startswith_spec, IH. split.
    + intros [[post H] | (pre & post & H)].
      * by exists EmptyString, post.
      * exists (String c pre), post. simpl. by rewrite H.
    + intros ([|a pre] & post & H).
      * left. by exists post.
      * right. simpl in H. injection H as _ H. by exists pre, post.
Qed.

(** ** The stable descending sort *)

Section SortFacts.
Context {A : Type} (key : A → Q).

Lemma insert_desc_perm (below : A → A → bool) (x : A) (l : list A) :
  insert_desc below x l ≡ₚ x :: l.
Proof.
  induction l as [|y l IH]; simpl; [done|].
  destruct (below x y); [|done].
  rewrite IH. apply Permutation_swap.
Qed.

Lemma sort_desc_perm (below : A → A → bool) (l : list A) :
  sort_desc below l ≡ₚ l.
Proof.
  induction l as [|x l IH]; simpl; [done|].
  by rewrite insert_desc_perm, IH.
Qed.

Lemma sort_desc_length (below : A → A → bool) (l : list A) :
  length (sort_desc below l) = length l.
Proof. by rewrite (sort_desc_perm below l). Qed.

Lemma insert_desc_descending (x : A) (l : list A) :
  descending key l → descending key (insert_desc (key_below key) x l).
Proof.
  unfold descending.
  induction l as [|y l IH]; simpl; intros Hs.
  - repeat constructor.
  - apply StronglySorted_inv in Hs as [Hs Hy].
    destruct (key_below key x y) eqn:E.
    + apply Qltb_lt in E. constructor; [by apply IH|].
      rewrite insert_desc_perm. constructor; [by apply Qlt_le_weak | done].
    + apply Qltb_ge in E. constructor.
      * by constructor.
      * constructor; [done|].
        eapply Forall_impl; [exact Hy|]. simpl. intros z Hz.
        by eapply Qle_trans.
Qed.

Lemma sort_desc_descending (l : list A) : descending key (sort_desc (key_below key) l).
Proof.
  induction l as [|x l IH]; simpl.
  - constructor.
  - by apply insert_desc_descending.
Qed.

Lemma with_key_insert_desc (k : Q) (x : A) (l : list A) :
  with_key key k (insert_desc (key_below key) x l) = with_key key k (x :: l).
Proof.
  unfold with_key.
  induction l as [|y l IH]; simpl; [done|].
  destruct (key_below key x y) eqn:E; simpl; [|done].
  rewrite IH. simpl.
  destruct (Qeq_bool (key x) k) eqn:Ex; [|done].
  destruct (Qeq_bool (key y) k) eqn:Ey; [|done].
  apply Qeq_bool_iff in Ex, Ey. apply Qltb_lt in E.
  rewrite Ex, Ey in E. by apply Qlt_irrefl in E.
Qed.

(** Stability: for each key, the entries that carry it keep their order. *)
Lemma sort_desc_stable (k : Q) (l : list A) :
  with_key key k (sort_desc (key_below key) l) = with_key key k l.
Proof.
  induction l as [|x l IH]; simpl; [done|].
  rewrite with_key_insert_desc. unfold with_key in *. simpl. by rewrite IH.
Qed.

Lemma descending_lookup (l : list A) (i j : nat) (x y : A) :
  descending key l → i < j → l !! i = Some x → l !! j = Some y →
  (key y <= key x)%Q.
Proof.
  unfold descending. intros Hs. revert i j x y.
  induction Hs as [|a l Hs IH Ha]; intros i j x y Hij Hi Hj; [done|].
  destruct j as [|j]; [lia|]. simpl in Hj.
  destruct i as [|i]; simpl in Hi.
  - simplify_eq. rewrite Forall_forall in Ha. apply Ha.
    by eapply list_elem_of_lookup_2.
  - eapply (IH i j); [lia|done..].
Qed.

End SortFacts.

(** ** Slices *)

Lemma slices_of_short_list {A : Type} (l : list A) :
  length l ≤ 10 → take 10 l = l ∧ drop (length l - 10) l = l.
Proof.
  intros H. split.
  - by apply take_ge.
  - by replace (length l - 10) with 0 by lia.
Qed.

Lemma slices_apart {A : Type} (l : list A) :
  20 ≤ length l →
  l = take 10 l ++ take (length l - 20) (drop 10 l) ++ drop (length l - 10) l.
Proof.
  intros H.
  rewrite <- (take_drop 10 l) at 1. f_equal.
  rewrite <- (take_drop (length l - 20) (drop 10 l)) at 1. f_equal.
  rewrite drop_drop. f_equal. lia.
Qed.

(** ** One step of the analysis loop *)

Section AnalysisFacts.
Context (polarity : string → Q) (stop : gset string).

Lemma analyze_comment_without_body (st : analysis) (c : comment) :
  data c !! "body" = None → analyze_comment polarity stop st c = Ok st.
Proof. unfold analyze_comment. by intros ->. Qed.

(** The state after a record with a body, field by field. *)
Lemma analyze_comment_with_body (st st' : analysis) (c : comment) (body : string) :
  data c !! "body" = Some body →
  analyze_comment polarity stop st c = Ok st' →
  ∃ path, data c !! "permalink" = Some path ∧
    scored_comments st' =
      scored_comments st ++ [(polarity body, body, "https://reddit.com" +:+ path)] ∧
    all_words st' = all_words st ++ retained_words stop body ∧
    topic_counts st' = (tag_topics body (topic_counts st) (topic_comments st)).1 ∧
    topic_comments st' = (tag_topics body (topic_counts st) (topic_comments st)).2 ∧
    brand_counts st' = tag_brands body (brand_counts st) ∧
    (sentiment_data st', positive_words st', negative_words st') =
      (let sd := sentiment_data st in
       if Qltb 0.05 (polarity body) then
         (SentimentCounts (positive sd + 1) (neutral sd) (negative sd),
          positive_words st ++ Str.split body, negative_words st)
       else if Qltb (polarity body) (-0.05) then
         (SentimentCounts (positive sd) (neutral sd) (negative sd + 1),
          positive_words st, negative_words st ++ Str.split body)
       else
         (SentimentCounts (positive sd) (neutral sd + 1) (negative sd),
          positive_words st, negative_words st)).
Proof.
  unfold analyze_comment, getitem. intros -> H.
  destruct (data c !! "permalink") as [path|] eqn:Hp; simpl in H; [|done].
  exists path. split; [done|].
  destruct (tag_topics body (topic_counts st) (topic_comments st)) as [tc tm].
  destruct (Qltb 0.05 (polarity body)); [|destruct (Qltb (polarity body) (-0.05))];
    simpl in H; injection H as <-; simpl; done.
Qed.

Lemma analyze_loop_app (l1 l2 : list comment) (st : analysis) :
  analyze_loop polarity stop (l1 ++ l2) st =
  let! st' := analyze_loop polarity stop l1 st in analyze_loop polarity stop l2 st'.
Proof.
  revert st. induction l1 as [|c l1 IH]; intros st; simpl; [done|].
  destruct (analyze_comment polarity stop st c); simpl; [apply IH | done].
Qed.

End AnalysisFacts.

(** ** Sentiment buckets *)

Example boundary_score_is_neutral :
  Sample.polarity "My Hunter fan is fine" = 0.05%Q ∧
  ∃ r, analyze_comments Sample.polarity Sample.stop_words [Sample.owner] = Ok r ∧
       sentiment_data (totals r) = SentimentCounts 0 1 0 ∧
       brand_counts (totals r) = [("hunter", 1)] ∧
       positive_words (totals r) = [] ∧
       all_words (totals r) = ["my"; "hunter"; "fan"; "fine"].
Proof. split; [done|]. eexists. split; [vm_compute; reflexivity|]. done. Qed.

(** C1: for a record with a body, the loop increments the positive counter
    when the compound score is strictly above 0.05, the negative counter
    when it is strictly below -0.05, and the neutral counter otherwise; the
    scores 0.05 and -0.05 themselves count as neutral.  In each case the two
    other counters keep their value. *)
Theorem sentiment_bucket_by_thresholds
    (polarity : string → Q) (stop : gset string)
    (st st' : analysis) (c : comment) (body : string) :
  data c !! "body" = Some body →
  analyze_comment polarity stop st c = Ok st' →
  let s := polarity body in
  let sd := sentiment_data st in
  ((0.05 < s)%Q →
     sentiment_data st' = SentimentCounts (positive sd + 1) (neutral sd) (negative sd)) ∧
  ((s < -0.05)%Q →
     sentiment_data st' = SentimentCounts (positive sd) (neutral sd) (negative sd + 1)) ∧
  ((-0.05 <= s)%Q ∧ (s <= 0.05)%Q →
     sentiment_data st' = SentimentCounts (positive sd) (neutral sd + 1) (negative sd)) ∧
  ((s == 0.05)%Q ∨ (s == -0.05)%Q →
     sentiment_data st' = SentimentCounts (positive sd) (neutral sd + 1) (negative sd)).
Proof.
  intros Hb Hst s sd.
  destruct (analyze_comment_with_body polarity stop st st' c body Hb Hst)
    as (path & _ & _ & _ & _ & _ & _ & Hsd).
  fold s sd in Hsd.
  assert (Hmid : (-0.05 <= s)%Q ∧ (s <= 0.05)%Q →
     sentiment_data st' = SentimentCounts (positive sd) (neutral sd + 1) (negative sd)).
  { intros [Hlo Hhi].
    apply Qltb_ge in Hlo, Hhi. rewrite Hlo, Hhi in Hsd. by injection Hsd. }
  repeat split.
  - intros Hpos. apply Qltb_lt in Hpos. rewrite Hpos in Hsd. by injection Hsd.
  - intros Hneg.
    assert (Hnot : Qltb 0.05 s = false).
    { apply Qltb_ge. apply Qlt_le_weak. eapply Qlt_trans; [exact Hneg | done]. }
    apply Qltb_lt in Hneg. rewrite Hnot, Hneg in Hsd. by injection Hsd.
  - exact Hmid.
  - intros [He | He]; apply Hmid; rewrite He; split; done.
Qed.

Lemma sentiment_bucket_by_thresholds_witness :
  ∃ st',
    analyze_comment Sample.polarity Sample.stop_words analysis_start Sample.praise = Ok st' ∧
    sentiment_data st' = SentimentCounts 1 0 0.
Proof.
  eexists. split; [reflexivity|].
  pose proof (sentiment_bucket_by_thresholds Sample.polarity Sample.stop_words
                analysis_start _ Sample.praise "Great fan, love it!"
                eq_refl eq_refl) as H.
  cbv zeta in H. destruct H as [H _]. apply H. reflexivity.
Defined.

(** ** The three counters add up *)

Section CounterSum.
Context (polarity : string → Q) (stop : gset string).

Lemma has_body_lookup (c : comment) :
  has_body c = true ↔ ∃ body, data c !! "body" = Some body.
Proof.
  unfold has_body. destruct (data c !! "body") as [b|]; split; try done.
  - by exists b.
  - by intros [? ?].
Qed.

Lemma has_body_false (c : comment) :
  has_body c = false ↔ data c !! "body" = None.
Proof. unfold has_body. by destruct (data c !! "body"). Qed.

Lemma analyze_comment_one_bucket (st st' : analysis) (c : comment) :
  has_body c = true →
  analyze_comment polarity stop st c = Ok st' →
  one_bucket_more (sentiment_data st) (sentiment_data st') ∧
  length (scored_comments st') = length (scored_comments st) + 1.
Proof.
  intros [body Hb]%has_body_lookup Hst.
  destruct (analyze_comment_with_body polarity stop st st' c body Hb Hst)
    as (path & _ & Hsc & _ & _ & _ & _ & Hsd).
  split.
  - unfold one_bucket_more. simpl in Hsd.
    destruct (Qltb 0.05 (polarity body)); [|destruct (Qltb (polarity body) (-0.05))];
      injection Hsd as -> _ _; simpl; auto.
  - rewrite Hsc, length_app. simpl. lia.
Qed.

Lemma analyze_loop_counts (comments : list comment) (st st' : analysis) :
  analyze_loop polarity stop comments st = Ok st' →
  total (sentiment_data st') =
    total (sentiment_data st) + length (List.filter has_body comments) ∧
  length (scored_comments st') =
    length (scored_comments st) + length (List.filter has_body comments).
Proof.
  revert st. induction comments as [|c rest IH]; intros st H; simpl in *.
  - injection H as <-. lia.
  - destruct (analyze_comment polarity stop st c) as [st1|] eqn:E; simpl in H; [|done].
    apply IH in H as [H1 H2].
    destruct (has_body c) eqn:Hc; simpl.
    + apply analyze_comment_one_bucket in E as [Hone Hlen]; [|done].
      unfold total, one_bucket_more in *. lia.
    + apply has_body_false in Hc.
      rewrite (analyze_comment_without_body polarity stop st c Hc) in E.
      injection E as <-. lia.
Qed.

Lemma analyze_loop_returns (comments : list comment) (st : analysis) :
  (∀ c, c ∈ comments → has_body c = true → is_Some (data c !! "permalink")) →
  ∃ st', analyze_loop polarity stop comments st = Ok st'.
Proof.
  revert st. induction comments as [|c rest IH]; intros st Hp; simpl.
  - by exists st.
  - assert (∃ st1, analyze_comment polarity stop st c = Ok st1) as [st1 ->].
    { unfold analyze_comment, getitem.
      destruct (data c !! "body") as [body|] eqn:Hb; [|by eexists].
      destruct (Hp c) as [path ->]; [by left | by apply has_body_lookup; eexists |].
      simpl. destruct (tag_topics _ _ _).
      destruct (Qltb 0.05 _); [|destruct (Qltb _ (-0.05))]; by eexists. }
    simpl. apply IH. intros c' Hc'. apply Hp. by right.
Qed.

End CounterSum.

(** C2, as amended: whenever the analysis returns, the three counters add
    up to the number of records whose data holds a [body] key, the empty
    string included; the analysis does return when every such record also
    holds a [permalink]; a record with a body adds one to exactly one of the
    three counters, and a record without a body changes nothing. *)
Theorem bucket_counts_sum_to_bodies
    (polarity : string → Q) (stop : gset string) (comments : list comment) :
  (∀ r, analyze_comments polarity stop comments = Ok r →
        total (sentiment_data (totals r)) = length (List.filter has_body comments)) ∧
  ((∀ c, c ∈ comments → has_body c = true → is_Some (data c !! "permalink")) →
        ∃ r, analyze_comments polarity stop comments = Ok r) ∧
  (∀ st st' c, has_body c = true →
        analyze_comment polarity stop st c = Ok st' →
        one_bucket_more (sentiment_data st) (sentiment_data st')) ∧
  (∀ st c, has_body c = false → analyze_comment polarity stop st c = Ok st).
Proof.
  repeat split.
  - intros r. unfold analyze_comments.
    destruct (analyze_loop polarity stop comments analysis_start) as [st|] eqn:E;
      simpl; [|done].
    intros [= <-]. simpl.
    by apply analyze_loop_counts in E as [-> _].
  - intros Hp. unfold analyze_comments.
    destruct (analyze_loop_returns polarity stop comments analysis_start Hp) as [st ->].
    by eexists.
  - intros st st' c Hc Hst. by eapply analyze_comment_one_bucket.
  - intros st c Hc. apply analyze_comment_without_body. by apply has_body_false.
Qed.

Lemma bucket_counts_sum_to_bodies_witness :
  ∃ r, analyze_comments Sample.polarity Sample.stop_words (Sample.more :: Sample.thread) = Ok r ∧
       total (sentiment_data (totals r)) = 3.
Proof.
  eexists. split; [reflexivity|].
  apply (bucket_counts_sum_to_bodies Sample.polarity Sample.stop_words
           (Sample.more :: Sample.thread)).
  reflexivity.
Defined.

(** C2, as stated, counts the records with a non-empty body; a record whose
    body is the empty string is analysed like any other and lands in a
    bucket, so the sum exceeds that count. *)
Lemma bucket_sum_counts_empty_body :
  ¬ (∀ (polarity : string → Q) (stop : gset string) (comments : list comment) r,
       analyze_comments polarity stop comments = Ok r →
       total (sentiment_data (totals r)) =
         length (List.filter has_nonempty_body comments)).
Proof.
  intros H.
  specialize (H Sample.polarity Sample.stop_words
                [Sample.reply "dee" "" "/r/fans/c/4"] _ eq_refl).
  vm_compute in H. discriminate H.
Qed.

(** ** Word lists *)

Lemma has_space_snoc (tok : string) (c : ascii) :
  Str.has_space (tok +:+ String c EmptyString) = Str.has_space tok || Str.isspace c.
Proof.
  induction tok as [|a tok IH]; simpl.
  - by rewrite orb_false_r.
  - by rewrite IH, orb_assoc.
Qed.

Lemma split_from_tokens (tok s t : string) :
  Str.has_space tok = false →
  t ∈ Str.split_from tok s →
  t ≠ EmptyString ∧ Str.has_space t = false.
Proof.
  revert tok. induction s as [|c s IH]; intros tok Htok; simpl.
  - destruct tok; simpl; [by intros ?%elem_of_nil|].
    intros ->%list_elem_of_singleton. done.
  - destruct (Str.isspace c) eqn:Ec.
    + intros [Ht|Ht]%elem_of_app.
      * destruct tok; simpl in Ht; [by apply elem_of_nil in Ht|].
        apply list_elem_of_singleton in Ht as ->. done.
      * by apply (IH EmptyString).
    + apply IH. by rewrite has_space_snoc, Htok, Ec.
Qed.

(** The tokens of [body.split()] are non-empty and free of white space. *)
Lemma split_tokens (s t : string) :
  t ∈ Str.split s → t ≠ EmptyString ∧ Str.has_space t = false.
Proof. by apply split_from_tokens. Qed.

Lemma retained_words_spec (stop : gset string) (body w : string) :
  w ∈ retained_words stop body ↔
  ∃ t, t ∈ Str.split body ∧ Str.isalpha t = true ∧ (Str.lower t ∉ stop) ∧ w = Str.lower t.
Proof.
  unfold retained_words. rewrite list_elem_of_fmap. split.
  - intros (t & -> & Ht). apply list_elem_of_In, filter_In in Ht as [Ht Hk].
    apply andb_true_iff in Hk as [Ha Hs]. apply negb_true_iff in Hs.
    apply bool_decide_eq_false in Hs.
    exists t. by rewrite list_elem_of_In.
  - intros (t & Ht & Ha & Hs & ->). exists t. split; [done|].
    apply list_elem_of_In, filter_In. split; [by apply list_elem_of_In|].
    rewrite Ha. simpl. apply negb_true_iff. by apply bool_decide_eq_false.
Qed.

(** C3, as amended: a record with a body appends to [all_words] its
    retained tokens (the tokens of the white-space split that are entirely
    alphabetic and whose lower-case form is no stop word, in lower case);
    to [positive_words], when the bucket is positive, and to
    [negative_words], when it is negative, it appends the raw tokens of the
    white-space split, unfiltered and in their own case; a neutral record
    leaves both of these lists as they are. *)
Theorem word_lists_contributions
    (polarity : string → Q) (stop : gset string)
    (st st' : analysis) (c : comment) (body : string) :
  data c !! "body" = Some body →
  analyze_comment polarity stop st c = Ok st' →
  let s := polarity body in
  all_words st' = all_words st ++ retained_words stop body ∧
  (∀ w, w ∈ retained_words stop body ↔
        ∃ t, t ∈ Str.split body ∧ Str.isalpha t = true ∧
             (Str.lower t ∉ stop) ∧ w = Str.lower t) ∧
  ((0.05 < s)%Q →
     positive_words st' = positive_words st ++ Str.split body ∧
     negative_words st' = negative_words st) ∧
  ((s < -0.05)%Q →
     positive_words st' = positive_words st ∧
     negative_words st' = negative_words st ++ Str.split body) ∧
  ((-0.05 <= s)%Q ∧ (s <= 0.05)%Q →
     positive_words st' = positive_words st ∧
     negative_words st' = negative_words st).
Proof.
  intros Hb Hst s.
  destruct (analyze_comment_with_body polarity stop st st' c body Hb Hst)
    as (path & _ & _ & Hall & _ & _ & _ & Hsd).
  fold s in Hsd. simpl in Hsd.
  split; [done|]. split; [apply retained_words_spec|].
  repeat split.
  - apply Qltb_lt in H. rewrite H in Hsd. by injection Hsd.
  - apply Qltb_lt in H. rewrite H in Hsd. by injection Hsd.
  - assert (Hnot : Qltb 0.05 s = false).
    { apply Qltb_ge, Qlt_le_weak. eapply Qlt_trans; [exact H | done]. }
    apply Qltb_lt in H. rewrite Hnot, H in Hsd. by injection Hsd.
  - assert (Hnot : Qltb 0.05 s = false).
    { apply Qltb_ge, Qlt_le_weak. eapply Qlt_trans; [exact H | done]. }
    apply Qltb_lt in H. rewrite Hnot, H in Hsd. by injection Hsd.
  - destruct H as [Hlo Hhi]. apply Qltb_ge in Hlo, Hhi.
    rewrite Hlo, Hhi in Hsd. by injection Hsd.
  - destruct H as [Hlo Hhi]. apply Qltb_ge in Hlo, Hhi.
    rewrite Hlo, Hhi in Hsd. by injection Hsd.
Qed.

Lemma word_lists_contributions_witness :
  ∃ st',
    analyze_comment Sample.polarity Sample.stop_words analysis_start Sample.praise = Ok st' ∧
    all_words st' = ["great"; "love"] ∧
    positive_words st' = ["Great"; "fan,"; "love"; "it!"] ∧
    negative_words st' = [].
Proof.
  eexists. split; [reflexivity|].
  pose proof (word_lists_contributions Sample.polarity Sample.stop_words
                analysis_start _ Sample.praise "Great fan, love it!"
                eq_refl eq_refl) as H.
  cbv zeta in H. destruct H as (Hall & _ & Hpos & _).
  split; [exact Hall|]. apply Hpos. reflexivity.
Defined.

(** C3, as stated, has the positive list receive the retained tokens; the
    loop hands it the raw tokens of the split instead. *)
Lemma positive_words_are_raw_tokens :
  ¬ (∀ (polarity : string → Q) (stop : gset string)
       (st st' : analysis) (c : comment) (body : string),
       data c !! "body" = Some body →
       analyze_comment polarity stop st c = Ok st' →
       (0.05 < polarity body)%Q →
       positive_words st' = positive_words st ++ retained_words stop body).
Proof.
  intros H.
  specialize (H Sample.polarity Sample.stop_words analysis_start _ Sample.praise
                "Great fan, love it!" eq_refl eq_refl eq_refl).
  vm_compute in H. discriminate H.
Qed.

(** ** Ranking *)

(** C4: once the loop has collected the scored comments, the analysis
    returns; the sort it applies is a permutation of the collected entries,
    descending by score, and stable (for each score, the entries that carry
    it keep their input order); the most positive entries are the first ten
    of the sorted list and the most negative ones its last ten; with at most
    ten entries both results are the whole sorted list; with more than
    twenty entries the two results lie apart in the sorted list, ten
    entries each, so that no position belongs to both, and no scored
    comment either when the collected ones are pairwise distinct. *)
Theorem ranking_of_scored_comments
    (polarity : string → Q) (stop : gset string)
    (comments : list comment) (st : analysis) :
  analyze_loop polarity stop comments analysis_start = Ok st →
  let collected := scored_comments st in
  let sorted := sort_desc score_below collected in
  ∃ r, analyze_comments polarity stop comments = Ok r ∧
    length collected = length (List.filter has_body comments) ∧
    sorted ≡ₚ collected ∧
    descending score sorted ∧
    (∀ k, with_key score k sorted = with_key score k collected) ∧
    most_positive r = take 10 sorted ∧
    most_negative r = drop (length sorted - 10) sorted ∧
    (length collected ≤ 10 → most_positive r = sorted ∧ most_negative r = sorted) ∧
    (20 < length collected →
       length (most_positive r) = 10 ∧ length (most_negative r) = 10 ∧
       (∃ middle, sorted = most_positive r ++ middle ++ most_negative r) ∧
       (NoDup collected → ∀ x, x ∈ most_positive r → x ∉ most_negative r)).
Proof.
  intros Hst collected sorted.
  exists (rank st). unfold analyze_comments. rewrite Hst. simpl.
  fold collected. fold sorted.
  assert (Hlen : length sorted = length collected) by apply sort_desc_length.
  split; [done|]. split.
  { apply analyze_loop_counts in Hst as [_ Hc]. exact Hc. }
  split; [apply sort_desc_perm|].
  split; [apply (sort_desc_descending score)|].
  split; [intros k; apply (sort_desc_stable score)|].
  split; [done|]. split; [done|]. split.
  - intros Hshort. apply slices_of_short_list. lia.
  - intros Hlong.
    pose proof (slices_apart sorted ltac:(lia)) as Hcut.
    split; [|split; [|split]].
    + rewrite length_take. lia.
    + rewrite length_drop. lia.
    + eexists. exact Hcut.
    + intros Hnd x Hx Hx'.
      rewrite <- (sort_desc_perm score_below collected) in Hnd.
      fold sorted in Hnd. rewrite Hcut in Hnd.
      apply NoDup_app in Hnd as (_ & Hapart & _).
      apply (Hapart x Hx). apply elem_of_app. by right.
Qed.

Lemma ranking_of_scored_comments_witness :
  analyze_loop Sample.polarity Sample.stop_words Sample.long_thread analysis_start =
    Ok Sample.long_thread_state ∧
  ∃ middle,
    sort_desc score_below (scored_comments Sample.long_thread_state) =
    most_positive (rank Sample.long_thread_state) ++ middle ++
    most_negative (rank Sample.long_thread_state).
Proof.
  assert (H : analyze_loop Sample.polarity Sample.stop_words Sample.long_thread
                analysis_start = Ok Sample.long_thread_state)
    by (vm_compute; reflexivity).
  split; [exact H|].
  destruct (ranking_of_scored_comments _ _ _ _ H)
    as (r & Hr & _ & _ & _ & _ & _ & _ & _ & Hfar).
  unfold analyze_comments in Hr. rewrite H in Hr. injection Hr as <-.
  destruct Hfar as (_ & _ & [middle Hm] & _); [vm_compute; lia|].
  by exists middle.
Defined.

(** ** Topics and brands *)

Lemma mentions_spec (keyword body : string) :
  mentions keyword body = true ↔
  ∃ pre post, Str.lower body = pre +:+ keyword +:+ post.
Proof. apply contains_spec. Qed.

Lemma topics_NoDup : NoDup topics.
Proof. apply (bool_decide_unpack (NoDup topics)). by vm_compute. Qed.

Lemma BRANDS_NoDup : NoDup BRANDS.
Proof. apply (bool_decide_unpack (NoDup BRANDS)). by vm_compute. Qed.

Section Tagging.
Context (body : string).

Lemma hit_cons (k : string) (keys : list string) (t : string) :
  k ∉ keys →
  hit body (k :: keys) t =
  (if decide (t = k) then mentions k body else hit body keys t).
Proof.
  intros Hk. unfold hit. case_decide as E.
  - subst t. rewrite bool_decide_eq_true_2; [done | by left].
  - f_equal. destruct (decide (t ∈ keys)) as [Hin|Hout].
    + rewrite !bool_decide_eq_true_2; [done | done | by right].
    + rewrite !bool_decide_eq_false_2; [done | done |].
      rewrite elem_of_cons. by intros [?|?].
Qed.

Lemma tag_topics_fold (keys : list string) (acc : Counter * Grouped) (t : string) :
  NoDup keys →
  counter_get t (fold_left (tag_topic body) keys acc).1 =
    counter_get t acc.1 + (if hit body keys t then 1 else 0) ∧
  grouped_get t (fold_left (tag_topic body) keys acc).2 =
    grouped_get t acc.2 ++ (if hit body keys t then [body] else []).
Proof.
  intros Hnd. revert acc.
  induction Hnd as [|k keys Hk Hnd IH]; intros acc; cbn [fold_left].
  - assert (hit body [] t = false) as -> by done.
    rewrite app_nil_r. split; [lia | done].
  - destruct (IH (tag_topic body acc k)) as [-> ->].
    rewrite (hit_cons k keys t Hk). unfold tag_topic.
    case_decide as E.
    + subst t.
      assert (hit body keys k = false) as ->.
      { unfold hit. by rewrite bool_decide_eq_false_2. }
      destruct (mentions k body); simpl.
      * rewrite counter_get_incr, grouped_get_append.
        repeat case_decide; try done.
        rewrite app_nil_r. split; [lia | done].
      * rewrite app_nil_r. split; [lia | done].
    + destruct (mentions k body); simpl; [|done].
      rewrite counter_get_incr, grouped_get_append.
      repeat case_decide; try done.
      rewrite Nat.add_0_r, app_nil_r. done.
Qed.

Lemma tag_brands_fold (keys : list string) (counts : Counter) (t : string) :
  NoDup keys →
  counter_get t (fold_left (tag_brand body) keys counts) =
    counter_get t counts + (if hit body keys t then 1 else 0).
Proof.
  intros Hnd. revert counts.
  induction Hnd as [|k keys Hk Hnd IH]; intros counts; cbn [fold_left].
  - assert (hit body [] t = false) as -> by done. lia.
  - rewrite IH, (hit_cons k keys t Hk). unfold tag_brand.
    case_decide as E.
    + subst t.
      assert (hit body keys k = false) as ->.
      { unfold hit. by rewrite bool_decide_eq_false_2. }
      destruct (mentions k body); simpl; [|lia].
      rewrite counter_get_incr, decide_True by done. lia.
    + destruct (mentions k body); simpl; [|done].
      by rewrite counter_get_incr, decide_False, Nat.add_0_r by done.
Qed.

(** Keywords that the body does not mention leave the indices alone. *)
Lemma tag_topics_fold_none (keys : list string) (acc : Counter * Grouped) :
  (∀ t, t ∈ keys → mentions t body = false) →
  fold_left (tag_topic body) keys acc = acc.
Proof.
  revert acc. induction keys as [|k keys IH]; intros acc Hnone; simpl; [done|].
  unfold tag_topic at 2. rewrite (Hnone k) by (by left).
  apply IH. intros t Ht. apply Hnone. by right.
Qed.

End Tagging.

Lemma tag_topics_fold_single (body k : string) (l1 l2 : list string)
    (acc : Counter * Grouped) :
  (∀ t, t ∈ l1 → mentions t body = false) →
  (∀ t, t ∈ l2 → mentions t body = false) →
  mentions k body = true →
  fold_left (tag_topic body) (l1 ++ k :: l2) acc =
  (counter_incr k acc.1, grouped_append k body acc.2).
Proof.
  intros H1 H2 Hk.
  rewrite fold_left_app, (tag_topics_fold_none body l1 acc H1).
  cbn [fold_left]. unfold tag_topic at 2. rewrite Hk.
  by apply tag_topics_fold_none.
Qed.

Lemma topics_around_noise :
  topics = take 8 topics ++ "noise" :: drop 9 topics ∧
  Forall (fun t => t ∈ topics ∧ t ≠ "noise") (take 8 topics ++ drop 9 topics).
Proof.
  split; [done|].
  apply (bool_decide_unpack
           (Forall (fun t => t ∈ topics ∧ t ≠ "noise") (take 8 topics ++ drop 9 topics))).
  by vm_compute.
Qed.

(** C5: a body mentions a keyword exactly when the keyword occurs in the
    lower-cased body as a contiguous substring; a record with a body adds
    one to the count of every topic it mentions and appends the body to that
    topic's comments, adds one to the count of every brand it mentions, and
    leaves every other count and list as it was; a body that mentions
    "noise" and no other topic adds one to "noise" only, and as the first
    record of a run it leaves the topic index with the single count
    ("noise", 1). *)
Theorem keyword_tagging
    (polarity : string → Q) (stop : gset string)
    (st st' : analysis) (c : comment) (body : string) :
  data c !! "body" = Some body →
  analyze_comment polarity stop st c = Ok st' →
  (∀ keyword, mentions keyword body = true ↔
              ∃ pre post, Str.lower body = pre +:+ keyword +:+ post) ∧
  (∀ t, counter_get t (topic_counts st') =
          counter_get t (topic_counts st) + (if hit body topics t then 1 else 0) ∧
        grouped_get t (topic_comments st') =
          grouped_get t (topic_comments st) ++ (if hit body topics t then [body] else [])) ∧
  (∀ b, counter_get b (brand_counts st') =
          counter_get b (brand_counts st) + (if hit body BRANDS b then 1 else 0)) ∧
  (mentions "noise" body = true →
   (∀ t, t ∈ topics → t ≠ "noise" → mentions t body = false) →
     counter_get "noise" (topic_counts st') = counter_get "noise" (topic_counts st) + 1 ∧
     (∀ t, t ≠ "noise" →
           counter_get t (topic_counts st') = counter_get t (topic_counts st)) ∧
     (st = analysis_start →
        topic_counts st' = [("noise", 1)] ∧
        topic_comments st' = [("noise", [body])])).
Proof.
  intros Hb Hst.
  destruct (analyze_comment_with_body polarity stop st st' c body Hb Hst)
    as (path & _ & _ & _ & Htc & Htm & Hbc & _).
  assert (Htopics : ∀ t,
    counter_get t (topic_counts st') =
      counter_get t (topic_counts st) + (if hit body topics t then 1 else 0) ∧
    grouped_get t (topic_comments st') =
      grouped_get t (topic_comments st) ++ (if hit body topics t then [body] else [])).
  { intros t. rewrite Htc, Htm. unfold tag_topics.
    apply (tag_topics_fold body topics (topic_counts st, topic_comments st) t).
    apply topics_NoDup. }
  split; [intros keyword; apply mentions_spec|].
  split; [exact Htopics|].
  split.
  { intros b. rewrite Hbc. apply tag_brands_fold, BRANDS_NoDup. }
  intros Hnoise Hother. split; [|split].
  - destruct (Htopics "noise") as [-> _].
    assert (Hin : "noise" ∈ topics)
      by (apply (bool_decide_unpack ("noise" ∈ topics)); by vm_compute).
    unfold hit. by rewrite Hnoise, bool_decide_eq_true_2 by done.
  - intros t Ht. destruct (Htopics t) as [-> _].
    unfold hit. destruct (decide (t ∈ topics)) as [Hin|Hout].
    + rewrite (Hother t Hin Ht), andb_false_r. lia.
    + rewrite bool_decide_eq_false_2 by done. simpl. lia.
  - intros ->. rewrite Htc, Htm. unfold tag_topics.
    destruct topics_around_noise as [Hcut Hrest]. rewrite Hcut.
    rewrite Forall_app, !Forall_forall in Hrest. destruct Hrest as [Hl1 Hl2].
    rewrite tag_topics_fold_single; [done | | | done].
    + intros t Ht. by apply Hother; apply Hl1.
    + intros t Ht. by apply Hother; apply Hl2.
Qed.

Lemma keyword_tagging_witness :
  ∃ st',
    analyze_comment Sample.polarity Sample.stop_words analysis_start Sample.complaint = Ok st' ∧
    topic_counts st' = [("noise", 1)] ∧
    topic_comments st' = [("noise", ["Terrible noise, hate it."])].
Proof.
  eexists. split; [vm_compute; reflexivity|].
  refine (let H := keyword_tagging Sample.polarity Sample.stop_words
                     analysis_start _ Sample.complaint "Terrible noise, hate it."
                     _ _ in _).
  destruct H as (_ & _ & _ & H).
  apply H; [by vm_compute | | done].
  intros t Ht Hne.
  assert (Hall : Forall (fun t => t = "noise" ∨
                              mentions t "Terrible noise, hate it." = false) topics).
  { apply (bool_decide_unpack
             (Forall (fun t => t = "noise" ∨
                         mentions t "Terrible noise, hate it." = false) topics)).
    by vm_compute. }
  rewrite Forall_forall in Hall. by destruct (Hall t Ht).
  Unshelve. all: by vm_compute.
Defined.

(** ** Fetching *)

Lemma fetch_loop_comments (submissions : list (submission * response))
    (all_comments : list comment) (counts : Counter) :
  (fetch_loop submissions all_comments counts).1 =
  all_comments ++ flat_map kept submissions.
Proof.
  revert all_comments counts.
  induction submissions as [|[sub resp] rest IH]; intros all_comments counts; simpl.
  - by rewrite app_nil_r.
  - unfold kept at 1. simpl. case_decide; rewrite IH; [by rewrite app_assoc | done].
Qed.

Lemma fetch_loop_counts (submissions : list (submission * response))
    (all_comments : list comment) (counts : Counter) (name : string) :
  counter_get name (fetch_loop submissions all_comments counts).2 =
  counter_get name counts + submissions_in name submissions.
Proof.
  unfold submissions_in. revert all_comments counts.
  induction submissions as [|[sub resp] rest IH]; intros all_comments counts; simpl.
  - lia.
  - assert (Hstep : ∀ acc,
      counter_get name (fetch_loop rest acc (counter_incr (submission_subreddit sub) counts)).2 =
      counter_get name counts +
      length (if bool_decide (submission_subreddit sub = name)
              then (sub, resp) :: List.filter
                     (fun p => bool_decide (submission_subreddit p.1 = name)) rest
              else List.filter
                     (fun p => bool_decide (submission_subreddit p.1 = name)) rest)).
    { intros acc. rewrite IH, counter_get_incr.
      case_decide as E; [subst name; rewrite bool_decide_eq_true_2 by done
                        | rewrite bool_decide_eq_false_2 by done]; simpl; lia. }
    destruct (decide (status_code resp = 200%Z)); apply Hstep.
Qed.

Lemma recount_counts (comments : list comment) (counts : Counter) (name : string) :
  counter_get name (recount comments counts) =
  counter_get name counts + comments_in name comments.
Proof.
  unfold recount, comments_in. revert counts.
  induction comments as [|c rest IH]; intros counts; simpl; [lia|].
  rewrite IH. destruct (subreddit c) as [tag|] eqn:Etag.
  - rewrite counter_get_incr. case_decide as E.
    + subst tag. rewrite bool_decide_eq_true_2 by done. simpl. lia.
    + rewrite bool_decide_eq_false_2 by congruence. lia.
  - rewrite bool_decide_eq_false_2 by done. lia.
Qed.

Lemma fetch_answered (submissions : list (submission * response)) :
  ∃ counts,
    fetch_ceiling_fan_comments 200 submissions =
      Fetched (Some (flat_map kept submissions)) (Some counts) [] ∧
    ∀ name, counter_get name counts =
            submissions_in name submissions +
            comments_in name (flat_map kept submissions).
Proof.
  unfold fetch_ceiling_fan_comments. rewrite decide_True by done.
  pose proof (fetch_loop_comments submissions [] []) as Hc.
  pose proof (fetch_loop_counts submissions [] []) as Hn.
  destruct (fetch_loop submissions [] []) as [all_comments counts].
  simpl in Hc, Hn. subst all_comments.
  eexists. split; [done|].
  intros name. by rewrite recount_counts, Hn.
Qed.

(** C6: in the counts that the fetch returns, a subreddit has one for each
    submission of the search result that belongs to it and one more for each
    collected comment that carries its tag; one submission answered with two
    comments leaves its subreddit with the count 3. *)
Theorem subreddit_counted_per_submission_and_comment
    (submissions : list (submission * response)) :
  (∃ counts,
     fetched_comments (fetch_ceiling_fan_comments 200 submissions) =
       Some (flat_map kept submissions) ∧
     fetched_counts (fetch_ceiling_fan_comments 200 submissions) = Some counts ∧
     ∀ name, counter_get name counts =
             submissions_in name submissions +
             comments_in name (flat_map kept submissions)) ∧
  (∀ id c1 c2,
     fetch_ceiling_fan_comments 200
       [(Submission "homeimprovement" id, Response 200 [c1; c2])] =
     Fetched (Some [attach_subreddit "homeimprovement" c1;
                    attach_subreddit "homeimprovement" c2])
             (Some [("homeimprovement", 3)]) []).
Proof.
  split.
  - destruct (fetch_answered submissions) as (counts & -> & Hn).
    by exists counts.
  - done.
Qed.

(** C8: a comment request answered with a status other than 200 adds no
    comment; the fetch goes on with the submissions that follow, returns the
    comments and counts, and prints nothing; the comments are those of the
    same search result without the failed submission, and the counts differ
    from it only by the one that the failed submission itself added to its
    subreddit. *)
Theorem failed_comment_request_is_skipped
    (before after : list (submission * response))
    (sub : submission) (resp : response) :
  status_code resp ≠ 200%Z →
  ∃ counts counts',
    fetch_ceiling_fan_comments 200 (before ++ (sub, resp) :: after) =
      Fetched (Some (flat_map kept before ++ flat_map kept after)) (Some counts) [] ∧
    fetch_ceiling_fan_comments 200 (before ++ after) =
      Fetched (Some (flat_map kept before ++ flat_map kept after)) (Some counts') [] ∧
    ∀ name, counter_get name counts =
            counter_get name counts' +
            (if decide (name = submission_subreddit sub) then 1 else 0).
Proof.
  intros Hfail.
  destruct (fetch_answered (before ++ (sub, resp) :: after)) as (counts & Hf & Hn).
  destruct (fetch_answered (before ++ after)) as (counts' & Hf' & Hn').
  assert (Hkept : kept (sub, resp) = []).
  { unfold kept. simpl. by rewrite decide_False. }
  rewrite flat_map_app in Hf, Hn, Hf', Hn'. simpl in Hf, Hn.
  rewrite Hkept in Hf, Hn. simpl in Hf, Hn.
  exists counts, counts'. split; [done|]. split; [done|].
  intros name. rewrite Hn, Hn'. unfold submissions_in.
  rewrite !List.filter_app, !length_app. simpl.
  case_decide as E.
  - subst name. rewrite bool_decide_eq_true_2 by done. simpl. lia.
  - rewrite bool_decide_eq_false_2 by done. lia.
Qed.

Lemma failed_comment_request_is_skipped_witness :
  (503 ≠ 200)%Z ∧
  ∃ counts counts',
    fetch_ceiling_fan_comments 200 Sample.search_result =
      Fetched (Some (flat_map kept (take 1 Sample.search_result) ++
                     flat_map kept (drop 2 Sample.search_result)))
              (Some counts) [] ∧
    fetch_ceiling_fan_comments 200
      (take 1 Sample.search_result ++ drop 2 Sample.search_result) =
      Fetched (Some (flat_map kept (take 1 Sample.search_result) ++
                     flat_map kept (drop 2 Sample.search_result)))
              (Some counts') [] ∧
    ∀ name, counter_get name counts =
            counter_get name counts' +
            (if decide (name = "homeimprovement") then 1 else 0).
Proof.
  split; [done|].
  apply (failed_comment_request_is_skipped
           (take 1 Sample.search_result) (drop 2 Sample.search_result)
           (Submission "homeimprovement" "s2") (Response 503 [])).
  done.
Defined.

Example fetch_sample :
  fetch_ceiling_fan_comments 200 Sample.search_result =
  Fetched
    (Some (map (attach_subreddit "fans")
             [Sample.praise; Sample.more; Sample.complaint; Sample.owner]))
    (Some [("fans", 6); ("homeimprovement", 1)])
    [].
Proof. vm_compute. reflexivity. Qed.

(** ** Records without a body *)

Lemma csv_rows_app (l1 l2 : list comment) :
  csv_rows (l1 ++ l2) = csv_rows l1 ++ csv_rows l2.
Proof.
  induction l1 as [|c l1 IH]; simpl; [done|].
  destruct (data c !! "body"); by rewrite IH.
Qed.

Lemma counter_of_counts (keys : list string) (c : Counter) (k : string) :
  counter_get k (fold_left (fun c k => counter_incr k c) keys c) =
  counter_get k c + length (List.filter (fun k' => bool_decide (k' = k)) keys).
Proof.
  revert c. induction keys as [|k' keys IH]; intros c; simpl; [lia|].
  rewrite IH, counter_get_incr. case_decide as E.
  - subst k'. rewrite bool_decide_eq_true_2 by done. simpl. lia.
  - rewrite bool_decide_eq_false_2 by congruence. lia.
Qed.

Lemma summary_prints_total (comments : list comment) (sc bc tc : Counter)
    (mp mn : list scored) :
  TotalComments (length comments) ∈
    printed_lines (generate_final_summary comments sc bc tc mp mn).
Proof.
  unfold generate_final_summary.
  destruct mp as [|top mp]; [|destruct mn as [|bottom mn]]; cbn [printed_lines];
    rewrite ?elem_of_app; repeat left; cbn [app];
    apply list_elem_of_further, list_elem_of_here.
Qed.

Lemma analyze_loop_skips (polarity : string → Q) (stop : gset string)
    (before after : list comment) (c : comment) (st : analysis) :
  data c !! "body" = None →
  analyze_loop polarity stop (before ++ c :: after) st =
  analyze_loop polarity stop (before ++ after) st.
Proof.
  intros Hc. rewrite !analyze_loop_app.
  destruct (analyze_loop polarity stop before st) as [st1|]; simpl; [|done].
  by rewrite analyze_comment_without_body.
Qed.

(** C7, as amended: a record whose data has no [body] key is skipped by the
    CSV export and by the analysis, neither of which raises on its account:
    the rows written and everything the analysis returns (sentiment counts,
    topic and brand indices, grouped comments, the three word lists, the
    two rankings), or the exception it ends with, are those of the same
    input without the record.  The record still counts in the number of
    comments that the summary prints and, when it has an author, in the
    activity of that author. *)
Theorem record_without_body_is_skipped
    (polarity : string → Q) (stop : gset string)
    (before after : list comment) (c : comment) :
  data c !! "body" = None →
  (∀ filename,
     save_comments_to_csv (before ++ c :: after) filename =
     save_comments_to_csv (before ++ after) filename) ∧
  analyze_comments polarity stop (before ++ c :: after) =
    analyze_comments polarity stop (before ++ after) ∧
  (∀ sc bc tc mp mn,
     TotalComments (S (length (before ++ after))) ∈
       printed_lines (generate_final_summary (before ++ c :: after) sc bc tc mp mn)) ∧
  (∀ author, data c !! "author" = Some author →
     counter_get author (counter_of (authors (before ++ c :: after))) =
     S (counter_get author (counter_of (authors (before ++ after))))).
Proof.
  intros Hc. repeat split.
  - unfold save_comments_to_csv. rewrite !csv_rows_app. simpl. by rewrite Hc.
  - unfold analyze_comments. by rewrite analyze_loop_skips.
  - intros sc bc tc mp mn.
    replace (S (length (before ++ after))) with (length (before ++ c :: after))
      by (rewrite !length_app; simpl; lia).
    apply summary_prints_total.
  - intros author Ha.
    assert (Hwith : authors (before ++ c :: after) =
                    authors before ++ author :: authors after).
    { unfold authors. rewrite omap_app. simpl. by rewrite Ha. }
    assert (Hwithout : authors (before ++ after) = authors before ++ authors after)
      by apply omap_app.
    rewrite Hwith, Hwithout. unfold counter_of.
    rewrite !counter_of_counts, !List.filter_app, !length_app.
    cbn [List.filter]. rewrite bool_decide_eq_true_2 by done.
    cbn [length counter_get]. lia.
Qed.

Lemma record_without_body_is_skipped_witness :
  data Sample.more !! "body" = None ∧
  analyze_comments Sample.polarity Sample.stop_words
    ([Sample.praise] ++ Sample.more :: [Sample.owner]) =
  analyze_comments Sample.polarity Sample.stop_words
    ([Sample.praise] ++ [Sample.owner]).
Proof.
  split; [done|].
  apply (record_without_body_is_skipped Sample.polarity Sample.stop_words
           [Sample.praise] [Sample.owner] Sample.more).
  done.
Defined.

(** C7, as stated, keeps the record out of every output of the run; the run
    counts it among the fetched comments that it prints, before the analysis
    and again in the summary. *)
Lemma record_without_body_counts_in_run :
  ¬ (∀ (polarity : string → Q) (stop : gset string) (show : figure → result unit)
       (before after : list comment) (c : comment) (counts : Counter),
       data c !! "body" = None →
       report polarity stop show (before ++ c :: after) counts =
       report polarity stop show (before ++ after) counts).
Proof.
  intros H.
  specialize (H Sample.polarity Sample.stop_words Sample.show
                [Sample.praise; Sample.complaint; Sample.owner] []
                Sample.more [("fans", 5)] eq_refl).
  vm_compute in H. discriminate H.
Qed.

(** ** The examples of the summary *)

Lemma snoc_two {A : Type} (h : list A) (a b c : A) :
  (h ++ [a; b]) ++ [c] = (h ++ [a]) ++ [b; c].
Proof. by rewrite <- !app_assoc. Qed.

Lemma summary_of_ranked (comments : list comment) (sc bc tc : Counter)
    (top bottom : scored) (mp mn : list scored) :
  ∃ lines,
    generate_final_summary comments sc bc tc (top :: mp) (bottom :: mn) =
    Printed (lines ++ [Text "Top Negative Comment Example:"; example_of bottom]) None.
Proof.
  unfold generate_final_summary. eexists. f_equal. apply snoc_two.
Qed.


Section BottomSlice.
Context {A : Type} (key : A → Q).

(** The last ten entries of a descending list of more than ten. *)
Lemma bottom_slice (sorted : list A) :
  descending key sorted →
  10 < length sorted →
  let n := length sorted in
  let bottom := drop (n - 10) sorted in
  ∃ x lowest,
    bottom !! 0 = Some x ∧ sorted !! (n - 10) = Some x ∧
    bottom !! 9 = Some lowest ∧ sorted !! (n - 1) = Some lowest ∧
    length bottom = 10 ∧
    (∀ y, y ∈ bottom → (key y <= key x)%Q) ∧
    (∀ i y, i < n - 10 → sorted !! i = Some y → (key x <= key y)%Q) ∧
    (∀ y, y ∈ sorted → (key lowest <= key y)%Q).
Proof.
  intros Hdesc Hlen n bottom.
  destruct (lookup_lt_is_Some_2 sorted (n - 10)) as [x Hx]; [lia|].
  destruct (lookup_lt_is_Some_2 sorted (n - 1)) as [lowest Hlow]; [lia|].
  exists x, lowest.
  assert (Hb : ∀ j, bottom !! j = sorted !! (n - 10 + j)).
  { intros j. unfold bottom. apply lookup_drop. }
  split; [by rewrite Hb, Nat.add_0_r|]. split; [done|].
  split; [rewrite Hb; by replace (n - 10 + 9) with (n - 1) by lia|].
  split; [done|].
  split; [unfold bottom; rewrite length_drop; lia|].
  split; [|split].
  - intros y [j Hj]%list_elem_of_lookup_1. rewrite Hb in Hj.
    destruct j as [|j].
    + rewrite Nat.add_0_r in Hj. simplify_eq. apply Qle_refl.
    + eapply (descending_lookup key sorted (n - 10) (n - 10 + S j)); [done|lia|done..].
  - intros i y Hi Hy.
    eapply (descending_lookup key sorted i (n - 10)); [done|lia|done..].
  - intros y [i Hi]%list_elem_of_lookup_1.
    assert (i < n) by (by eapply lookup_lt_Some).
    destruct (decide (i = n - 1)) as [->|Hne].
    + simplify_eq. apply Qle_refl.
    + eapply (descending_lookup key sorted i (n - 1)); [done|lia|done..].
Qed.

End BottomSlice.

(** C9: when more than ten records with a body are analysed, the first
    entry of the most negative result is the entry ten places from the end
    of the descending sort: no entry of the last ten scores above it, every
    entry before it scores at least as much, and the summary prints it as
    its negative example.  The entry that the sort ranks lowest is the last
    of the result, nine places further on; it scores strictly lower as soon
    as the scores of the last ten are not all equal, and it is another
    scored comment when the collected ones are pairwise distinct. *)
Theorem top_negative_example_is_tenth_lowest
    (polarity : string → Q) (stop : gset string)
    (comments : list comment) (r : analysis_result) :
  analyze_comments polarity stop comments = Ok r →
  10 < length (List.filter has_body comments) →
  let sorted := sort_desc score_below (scored_comments (totals r)) in
  let n := length sorted in
  n = length (List.filter has_body comments) ∧
  ∃ x lowest,
    most_negative r !! 0 = Some x ∧ sorted !! (n - 10) = Some x ∧
    most_negative r !! 9 = Some lowest ∧ sorted !! (n - 1) = Some lowest ∧
    n - 10 ≠ n - 1 ∧
    length (most_negative r) = 10 ∧
    (∀ y, y ∈ most_negative r → (score y <= score x)%Q) ∧
    (∀ i y, i < n - 10 → sorted !! i = Some y → (score x <= score y)%Q) ∧
    (∀ y, y ∈ sorted → (score lowest <= score y)%Q) ∧
    ((∃ y, y ∈ most_negative r ∧ ¬ (score y == score x)%Q) →
       (score lowest < score x)%Q) ∧
    (NoDup (scored_comments (totals r)) → x ≠ lowest) ∧
    (∀ sc bc tc, ∃ lines,
       generate_final_summary comments sc bc tc (most_positive r) (most_negative r) =
       Printed (lines ++ [Text "Top Negative Comment Example:"; example_of x]) None).
Proof.
  intros Hr Hmany sorted n.
  unfold analyze_comments in Hr.
  destruct (analyze_loop polarity stop comments analysis_start) as [st|] eqn:Hst;
    simpl in Hr; [|done].
  injection Hr as <-. simpl in sorted.
  assert (Hn : n = length (List.filter has_body comments)).
  { unfold n, sorted. rewrite sort_desc_length.
    by apply analyze_loop_counts in Hst as [_ ->]. }
  split; [done|].
  destruct (bottom_slice score sorted) as
    (x & lowest & Hx0 & Hx & Hl9 & Hl & Hlen & Hbelow & Habove & Hmin).
  { apply (sort_desc_descending score). }
  { fold n. lia. }
  fold n in Hx0, Hx, Hl9, Hl, Hlen, Hbelow, Habove.
  exists x, lowest. simpl.
  split; [done|]. split; [done|]. split; [done|]. split; [done|].
  split; [lia|]. split; [done|]. split; [done|]. split; [done|]. split; [done|].
  split.
  - intros (y & Hy & Hne).
    apply Qle_lt_trans with (score y).
    + apply Hmin. by eapply subseteq_drop.
    + destruct (Qle_lt_or_eq _ _ (Hbelow y Hy)) as [Hlt|Heq]; done.
  - split.
    { intros Hnd ->.
      rewrite <- (sort_desc_perm score_below (scored_comments st)) in Hnd.
      pose proof (NoDup_lookup _ _ _ _ Hnd Hx Hl). lia. }
    intros sc bc tc. fold sorted. fold n.
    assert (Htop : length (take 10 sorted) = 10).
    { rewrite length_take. fold n. lia. }
    destruct (take 10 sorted) as [|top mp]; [done|].
    destruct (drop (n - 10) sorted) as [|bottom mn] eqn:Hbottom; [done|].
    simpl in Hx0. injection Hx0 as ->.
    apply summary_of_ranked.
Qed.

Lemma top_negative_example_is_tenth_lowest_witness :
  analyze_comments Sample.polarity Sample.stop_words Sample.long_thread =
    Ok (rank Sample.long_thread_state) ∧
  10 < length (List.filter has_body Sample.long_thread) ∧
  ∃ x lowest,
    most_negative (rank Sample.long_thread_state) !! 0 = Some x ∧
    most_negative (rank Sample.long_thread_state) !! 9 = Some lowest ∧
    (score lowest <= score x)%Q.
Proof.
  assert (H : analyze_comments Sample.polarity Sample.stop_words Sample.long_thread =
              Ok (rank Sample.long_thread_state)) by (vm_compute; reflexivity).
  assert (Hmany : 10 < length (List.filter has_body Sample.long_thread))
    by (vm_compute; lia).
  split; [exact H|]. split; [exact Hmany|].
  destruct (top_negative_example_is_tenth_lowest _ _ _ _ H Hmany)
    as (_ & x & lowest & Hx & _ & Hlow & _ & _ & _ & Hbelow & _).
  exists x, lowest. split; [exact Hx|]. split; [exact Hlow|].
  apply Hbelow. by eapply list_elem_of_lookup_2.
Defined.

Example top_negative_example_of_long_thread :
  most_negative (rank Sample.long_thread_state) !! 0 =
    Some (0%Q, "It's okay I guess.", "https://reddit.com/r/fans/c/e3") ∧
  last (most_negative (rank Sample.long_thread_state)) =
    Some ((-0.5719)%Q, "Terrible noise, hate it.", "https://reddit.com/r/fans/c/g2").
Proof. split; vm_compute; reflexivity. Qed.

(** ** A run with no body at all *)

Section NoBody.
Context (polarity : string → Q) (stop : gset string) (show : figure → result unit).




End NoBody.



(** * Further properties of the pipeline *)

(** ** The analysis loop, record by record *)

Lemma omap_cons_some {A B : Type} (f : A → option B) (x : A) (y : B) (l : list A) :
  f x = Some y → omap f (x :: l) = y :: omap f l.
Proof. intros H. simpl. by rewrite H. Qed.

Lemma omap_cons_none {A B : Type} (f : A → option B) (x : A) (l : list A) :
  f x = None → omap f (x :: l) = omap f l.
Proof. intros H. simpl. by rewrite H. Qed.

Section LoopInduction.
Context (polarity : string → Q) (stop : gset string).

(** Induction along a run of the loop that returns. *)
Lemma analyze_loop_induction (P : list comment → analysis → analysis → Prop) :
  (∀ st, P [] st st) →
  (∀ c rest st st',
     data c !! "body" = None → P rest st st' → P (c :: rest) st st') →
  (∀ c rest st st1 st' body,
     data c !! "body" = Some body →
     analyze_comment polarity stop st c = Ok st1 →
     P rest st1 st' → P (c :: rest) st st') →
  ∀ comments st st',
    analyze_loop polarity stop comments st = Ok st' → P comments st st'.
Proof.
  intros Hnil Hskip Hstep comments.
  induction comments as [|c rest IH]; intros st st' Hrun; simpl in Hrun.
  - injection Hrun as <-. apply Hnil.
  - destruct (analyze_comment polarity stop st c) as [st1|] eqn:E; simpl in Hrun; [|done].
    destruct (data c !! "body") as [body|] eqn:Hb.
    + eapply Hstep; [done | exact E | by apply IH].
    + rewrite analyze_comment_without_body in E by done. injection E as <-.
      apply Hskip; [done | by apply IH].
Qed.

Lemma bodies_cons_body (c : comment) (rest : list comment) (body : string) :
  data c !! "body" = Some body → bodies (c :: rest) = body :: bodies rest.
Proof. exact (omap_cons_some (fun c => data c !! "body") c body rest). Qed.

Lemma bodies_cons_none (c : comment) (rest : list comment) :
  data c !! "body" = None → bodies (c :: rest) = bodies rest.
Proof. exact (omap_cons_none (fun c => data c !! "body") c rest). Qed.

Lemma bodies_length (comments : list comment) :
  length (bodies comments) = length (List.filter has_body comments).
Proof.
  induction comments as [|c rest IH]; [done|].
  cbn [List.filter]. unfold has_body at 1.
  destruct (data c !! "body") as [body|] eqn:Hb.
  - rewrite (bodies_cons_body c rest body Hb). cbn [length]. by rewrite IH.
  - by rewrite (bodies_cons_none c rest Hb).
Qed.

(** The scored comments, in the order of the input. *)
Lemma analyze_loop_scored (comments : list comment) (st st' : analysis) :
  analyze_loop polarity stop comments st = Ok st' →
  scored_comments st' = scored_comments st ++ omap (scored_entry polarity) comments ∧
  map (fun x : scored => x.1.2) (omap (scored_entry polarity) comments) = bodies comments.
Proof.
  revert comments st st'. apply analyze_loop_induction.
  - intros st. by rewrite app_nil_r.
  - intros c rest st st' Hb [IH1 IH2]. rewrite bodies_cons_none by done.
    rewrite omap_cons_none; [done|]. unfold scored_entry. by rewrite Hb.
  - intros c rest st st1 st' body Hb Hst [IH1 IH2].
    destruct (analyze_comment_with_body polarity stop st st1 c body Hb Hst)
      as (path & Hp & Hsc & _).
    rewrite bodies_cons_body with (body := body) by done.
    rewrite (omap_cons_some _ c (polarity body, body, "https://reddit.com" +:+ path))
      by (unfold scored_entry; by rewrite Hb, Hp).
    split; [|simpl; f_equal; exact IH2].
    rewrite IH1, Hsc, <- app_assoc. done.
Qed.

(** The three word lists, from the bodies. *)
Lemma analyze_loop_words (comments : list comment) (st st' : analysis) :
  analyze_loop polarity stop comments st = Ok st' →
  all_words st' = all_words st ++ flat_map (retained_words stop) (bodies comments) ∧
  positive_words st' =
    positive_words st ++
    flat_map Str.split (List.filter (scores_positive polarity) (bodies comments)) ∧
  negative_words st' =
    negative_words st ++
    flat_map Str.split (List.filter (scores_negative polarity) (bodies comments)).
Proof.
  revert comments st st'. apply analyze_loop_induction.
  - intros st. by rewrite !app_nil_r.
  - intros c rest st st' Hb IH. by rewrite bodies_cons_none by done.
  - intros c rest st st1 st' body Hb Hst (IH1 & IH2 & IH3).
    destruct (analyze_comment_with_body polarity stop st st1 c body Hb Hst)
      as (path & _ & _ & Hall & _ & _ & _ & Hsd).
    rewrite bodies_cons_body with (body := body) by done.
    rewrite IH1, IH2, IH3, Hall. cbn [List.filter flat_map].
    unfold scores_positive, scores_negative. simpl in Hsd.
    destruct (Qltb 0.05 (polarity body)) eqn:Ep;
      destruct (Qltb (polarity body) (-0.05)) eqn:En;
      injection Hsd as _ -> ->;
      cbn [flat_map]; rewrite <- ?app_assoc; try done.
    apply Qltb_lt in Ep, En. exfalso.
    apply (Qlt_irrefl 0.05). eapply Qlt_trans; [exact Ep|].
    eapply Qlt_trans; [exact En | done].
Qed.

End LoopInduction.

Section LoopTotals.
Context (polarity : string → Q) (stop : gset string).

(** The three counters, from the bodies. *)
Lemma analyze_loop_sentiment (comments : list comment) (st st' : analysis) :
  analyze_loop polarity stop comments st = Ok st' →
  positive (sentiment_data st') =
    positive (sentiment_data st) +
    length (List.filter (scores_positive polarity) (bodies comments)) ∧
  neutral (sentiment_data st') =
    neutral (sentiment_data st) +
    length (List.filter (scores_neutral polarity) (bodies comments)) ∧
  negative (sentiment_data st') =
    negative (sentiment_data st) +
    length (List.filter (scores_negative polarity) (bodies comments)).
Proof.
  revert comments st st'. apply analyze_loop_induction.
  - intros st. simpl. lia.
  - intros c rest st st' Hb IH. by rewrite bodies_cons_none by done.
  - intros c rest st st1 st' body Hb Hst (IH1 & IH2 & IH3).
    destruct (analyze_comment_with_body polarity stop st st1 c body Hb Hst)
      as (path & _ & _ & _ & _ & _ & _ & Hsd).
    rewrite bodies_cons_body with (body := body) by done.
    rewrite IH1, IH2, IH3. cbn [List.filter].
    unfold scores_neutral, scores_positive, scores_negative. simpl in Hsd.
    destruct (Qltb 0.05 (polarity body)) eqn:Ep;
      destruct (Qltb (polarity body) (-0.05)) eqn:En;
      injection Hsd as -> _ _; cbn [negb andb length positive neutral negative];
      try lia.
    apply Qltb_lt in Ep, En. exfalso.
    apply (Qlt_irrefl 0.05). eapply Qlt_trans; [exact Ep|].
    eapply Qlt_trans; [exact En | done].
Qed.

(** The topic and brand indices, from the bodies. *)
Lemma analyze_loop_tags (comments : list comment) (st st' : analysis) :
  analyze_loop polarity stop comments st = Ok st' →
  ∀ t,
    counter_get t (topic_counts st') =
      counter_get t (topic_counts st) +
      length (List.filter (fun b => hit b topics t) (bodies comments)) ∧
    grouped_get t (topic_comments st') =
      grouped_get t (topic_comments st) ++
      List.filter (fun b => hit b topics t) (bodies comments) ∧
    counter_get t (brand_counts st') =
      counter_get t (brand_counts st) +
      length (List.filter (fun b => hit b BRANDS t) (bodies comments)).
Proof.
  intros Hrun t. revert comments st st' Hrun.
  apply (analyze_loop_induction polarity stop).
  - intros st. change (bodies []) with (@nil string). cbn [List.filter length].
    rewrite app_nil_r. split; [lia|]. split; [done|lia].
  - intros c rest st st' Hb IH. by rewrite bodies_cons_none by done.
  - intros c rest st st1 st' body Hb Hst (IH1 & IH2 & IH3).
    destruct (analyze_comment_with_body polarity stop st st1 c body Hb Hst)
      as (path & _ & _ & _ & Htc & Htm & Hbc & _).
    destruct (tag_topics_fold body topics (topic_counts st, topic_comments st) t
                topics_NoDup) as [Hc Hg].
    pose proof (tag_brands_fold body BRANDS (brand_counts st) t BRANDS_NoDup) as Hb'.
    cbn [fst snd] in Hc, Hg.
    rewrite bodies_cons_body with (body := body) by done.
    rewrite IH1, IH2, IH3, Htc, Htm, Hbc. unfold tag_topics, tag_brands.
    rewrite Hc, Hg, Hb'. cbn [List.filter].
    destruct (hit body topics t); destruct (hit body BRANDS t);
      cbn [length app]; rewrite <- ?app_assoc, ?app_nil_r; cbn [app];
      (split; [lia|]); (split; [done|lia]).
Qed.

(** A step raises exactly on a record with a body and no permalink, and
    then with the [KeyError] of the permalink. *)
Lemma analyze_comment_cases (st : analysis) (c : comment) :
  (lacks_permalink c = true ∧
   analyze_comment polarity stop st c = Raise (KeyError "permalink")) ∨
  (lacks_permalink c = false ∧ ∃ st1, analyze_comment polarity stop st c = Ok st1).
Proof.
  unfold lacks_permalink, analyze_comment, getitem.
  destruct (data c !! "body") as [body|]; [|right; by eauto].
  destruct (data c !! "permalink") as [path|]; [right|left; by eauto].
  split; [done|]. simpl.
  destruct (tag_topics _ _ _).
  destruct (Qltb 0.05 _); [|destruct (Qltb _ (-0.05))]; by eexists.
Qed.

Lemma analyze_loop_raises (comments : list comment) (st : analysis) :
  (Exists (fun c => lacks_permalink c = true) comments →
   analyze_loop polarity stop comments st = Raise (KeyError "permalink")) ∧
  (∀ e, analyze_loop polarity stop comments st = Raise e →
        e = KeyError "permalink" ∧
        Exists (fun c => lacks_permalink c = true) comments).
Proof.
  revert st. induction comments as [|c rest IH]; intros st.
  - split; [by intros ?%Exists_nil | done].
  - simpl.
    destruct (analyze_comment_cases st c) as [[Hc ->]|[Hc [st1 ->]]]; simpl.
    + split; [done|]. intros e [= <-]. split; [done | by left].
    + destruct (IH st1) as [IH1 IH2]. split.
      * intros [Hc'|Hrest]%Exists_cons; [congruence | by apply IH1].
      * intros e He. destruct (IH2 e He) as [-> Hex]. split; [done | by right].
Qed.

End LoopTotals.

(** ** Characters and tokens *)

Lemma lower_char_idemp (c : ascii) :
  Str.lower_char (Str.lower_char c) = Str.lower_char c.
Proof. destruct c as [[] [] [] [] [] [] [] []]; by vm_compute. Qed.

Lemma isalpha_char_lower (c : ascii) :
  Str.isalpha_char c = true →
  Str.isalpha_char (Str.lower_char c) = true ∧ Str.isspace c = false ∧
  Str.isspace (Str.lower_char c) = false.
Proof. destruct c as [[] [] [] [] [] [] [] []]; by vm_compute. Qed.

Lemma lower_idemp (s : string) : Str.lower (Str.lower s) = Str.lower s.
Proof.
  induction s as [|c s IH]; simpl; [done|]. by rewrite lower_char_idemp, IH.
Qed.

Lemma all_alpha_lower (s : string) :
  Str.all_alpha s = true →
  Str.all_alpha (Str.lower s) = true ∧ Str.has_space (Str.lower s) = false.
Proof.
  induction s as [|c s IH]; simpl; [done|].
  intros [Hc Hs]%andb_true_iff.
  destruct (isalpha_char_lower c Hc) as (-> & _ & ->).
  destruct (IH Hs) as [-> ->]. done.
Qed.

Lemma isalpha_lower (s : string) :
  Str.isalpha s = true →
  Str.isalpha (Str.lower s) = true ∧ is_token (Str.lower s).
Proof.
  destruct s as [|c s]; [done|]. intros Hs.
  destruct (all_alpha_lower (String c s) Hs) as [Ha Hsp].
  split; [exact Ha|]. split; [done | exact Hsp].
Qed.

(** What the comprehension keeps: alphabetic words in lower case that are
    no stop words. *)
Lemma retained_words_clean (stop : gset string) (body w : string) :
  w ∈ retained_words stop body →
  Str.isalpha w = true ∧ Str.lower w = w ∧ (w ∉ stop) ∧ is_token w.
Proof.
  intros (t & _ & Ha & Hs & ->)%retained_words_spec.
  destruct (isalpha_lower t Ha) as [Hal Htok].
  by rewrite lower_idemp.
Qed.

Lemma append_empty_r (s : string) : s +:+ EmptyString = s.
Proof.
  induction s as [|c s IH]; [done|].
  change (String c (s +:+ EmptyString) = String c s). by f_equal.
Qed.

Lemma append_snoc (tok w : string) (c : ascii) :
  (tok +:+ String c EmptyString) +:+ w = tok +:+ String c w.
Proof.
  induction tok as [|a tok IH]; [done|].
  change (String a ((tok +:+ String c EmptyString) +:+ w) = String a (tok +:+ String c w)).
  by f_equal.
Qed.

Lemma split_from_token (tok w rest : string) :
  Str.has_space w = false →
  Str.split_from tok (w +:+ rest) = Str.split_from (tok +:+ w) rest.
Proof.
  revert tok. induction w as [|c w IH]; intros tok Hw; simpl.
  - by rewrite append_empty_r.
  - simpl in Hw. apply orb_false_iff in Hw as [Hc Hw].
    rewrite Hc, IH by done. by rewrite append_snoc.
Qed.

(** Joining tokens with a space and splitting again gives the tokens back. *)
Lemma split_join (l : list string) :
  Forall is_token l → Str.split (Str.join " " l) = l.
Proof.
  unfold Str.split. induction 1 as [|w l [Hne Hsp] Hl IH]; [done|].
  destruct l as [|w2 l].
  - simpl. rewrite <- (append_empty_r w) at 1.
    rewrite split_from_token by done. simpl. by destruct w.
  - change (Str.join " " (w :: w2 :: l))
      with (w +:+ String " " (Str.join " " (w2 :: l))).
    rewrite split_from_token by done.
    cbn [String.append Str.split_from]. change (Str.isspace " ") with true.
    cbn iota. rewrite IH. by destruct w.
Qed.

(** ** The ends of the sort *)

Section SortEnds.
Context {A : Type} (key : A → Q).

Lemma with_key_self (x : A) (l : list A) :
  with_key key (key x) (x :: l) = x :: with_key key (key x) l.
Proof.
  unfold with_key. cbn [List.filter].
  by rewrite (proj2 (Qeq_bool_iff (key x) (key x)) (Qeq_refl _)).
Qed.

(** The first entry of the sort has the largest key and is, among the
    entries of that key, the first of the input. *)
Lemma sort_desc_first (l rest : list A) (x : A) :
  sort_desc (key_below key) l = x :: rest →
  (∀ y, y ∈ l → (key y <= key x)%Q) ∧
  head (with_key key (key x) l) = Some x.
Proof.
  intros Hs. split.
  - intros y Hy. rewrite <- (sort_desc_perm (key_below key) l), Hs in Hy.
    pose proof (sort_desc_descending key l) as Hd. rewrite Hs in Hd.
    apply StronglySorted_inv in Hd as [_ Hd]. rewrite Forall_forall in Hd.
    apply elem_of_cons in Hy as [->|Hy]; [apply Qle_refl | by apply Hd].
  - rewrite <- (sort_desc_stable key (key x) l), Hs. by rewrite with_key_self.
Qed.

(** The last entry of the sort has the smallest key and is, among the
    entries of that key, the last of the input. *)
Lemma sort_desc_last (l front : list A) (z : A) :
  sort_desc (key_below key) l = front ++ [z] →
  (∀ y, y ∈ l → (key z <= key y)%Q) ∧
  last (with_key key (key z) l) = Some z.
Proof.
  intros Hs. split.
  - intros y Hy. rewrite <- (sort_desc_perm (key_below key) l), Hs in Hy.
    pose proof (sort_desc_descending key l) as Hd. rewrite Hs in Hd.
    apply elem_of_app in Hy as [Hy|Hy].
    + apply list_elem_of_lookup_1 in Hy as [i Hi].
      apply (descending_lookup key (front ++ [z]) i (length front)); [done| | |].
      * by eapply lookup_lt_Some.
      * by rewrite lookup_app_l by (by eapply lookup_lt_Some).
      * by rewrite list_lookup_middle.
    + apply list_elem_of_singleton in Hy as ->. apply Qle_refl.
  - rewrite <- (sort_desc_stable key (key z) l), Hs.
    unfold with_key. rewrite List.filter_app. cbn [List.filter].
    rewrite (proj2 (Qeq_bool_iff (key z) (key z)) (Qeq_refl _)).
    apply last_snoc.
Qed.

End SortEnds.

(** ** The export *)

Lemma csv_rows_filter (comments : list comment) :
  csv_rows comments = map csv_row (List.filter has_body comments).
Proof.
  induction comments as [|c rest IH]; [done|].
  cbn [csv_rows List.filter]. unfold has_body at 1.
  destruct (data c !! "body"); cbn [map]; by rewrite IH.
Qed.

Lemma csv_rows_bodies (comments : list comment) :
  map (fun row => nth 1 row "N/A") (csv_rows comments) = bodies comments.
Proof.
  induction comments as [|c rest IH]; [done|].
  cbn [csv_rows]. destruct (data c !! "body") as [body|] eqn:Hb.
  - rewrite (bodies_cons_body c rest body Hb). cbn [map]. rewrite IH.
    f_equal. unfold csv_row, get_default. cbn [nth]. by rewrite Hb.
  - by rewrite (bodies_cons_none c rest Hb).
Qed.

(** X1: the CSV file holds the header and then one row of four columns for
    each record with a body, in the order of the input; the body column of
    these rows is the list of the bodies themselves, so its "N/A" default is
    never written. *)
Theorem csv_rows_of_export (comments : list comment) (filename : string) :
  (save_comments_to_csv comments filename).1 =
    csv_header :: map csv_row (List.filter has_body comments) ∧
  length (save_comments_to_csv comments filename).1 =
    1 + length (List.filter has_body comments) ∧
  Forall (fun row => length row = 4) (save_comments_to_csv comments filename).1 ∧
  map (fun row => nth 1 row "N/A") (csv_rows comments) = bodies comments.
Proof.
  unfold save_comments_to_csv. cbn [fst]. rewrite csv_rows_filter.
  split; [done|]. split; [by rewrite length_cons, length_map|].
  split; [|by rewrite <- csv_rows_filter, csv_rows_bodies].
  constructor; [done|]. apply Forall_forall.
  by intros row (c & -> & _)%list_elem_of_fmap.
Qed.

(** ** A record without a permalink *)

Lemma csv_rows_elem (comments : list comment) (c : comment) :
  c ∈ comments → has_body c = true → csv_row c ∈ csv_rows comments.
Proof.
  intros Hc Hb. rewrite csv_rows_filter. apply list_elem_of_fmap.
  exists c. split; [done|]. apply list_elem_of_In, filter_In.
  split; [by apply list_elem_of_In | done].
Qed.

(** X2: the analysis ends in an exception exactly when some record has a
    body and no permalink, and the exception is then the [KeyError] of the
    permalink; the export does not fail on such a record: it writes its row
    with the bare site prefix as the link, and the run has written the file
    when the analysis raises. *)
Theorem analysis_raises_on_missing_permalink
    (polarity : string → Q) (stop : gset string) (show : figure → result unit)
    (comments : list comment) (counts : Counter) :
  (Exists (fun c => lacks_permalink c = true) comments ↔
   analyze_comments polarity stop comments = Raise (KeyError "permalink")) ∧
  (∀ e, analyze_comments polarity stop comments = Raise e → e = KeyError "permalink") ∧
  (∀ c, c ∈ comments → lacks_permalink c = true →
        csv_row c ∈ csv_rows comments ∧ nth 3 (csv_row c) "" = "https://reddit.com") ∧
  (Exists (fun c => lacks_permalink c = true) comments →
   report polarity stop show comments counts =
   Run [NumberOfComments (length comments); SavedTo "fetched_comments.csv"]
       (Some (csv_header :: csv_rows comments))
       (Some (KeyError "permalink"))).
Proof.
  destruct (analyze_loop_raises polarity stop comments analysis_start) as [Hto Hfrom].
  assert (Hraise : Exists (fun c => lacks_permalink c = true) comments →
    analyze_comments polarity stop comments = Raise (KeyError "permalink")).
  { intros Hex. unfold analyze_comments. by rewrite (Hto Hex). }
  assert (Hback : ∀ e, analyze_comments polarity stop comments = Raise e →
    e = KeyError "permalink" ∧ Exists (fun c => lacks_permalink c = true) comments).
  { intros e. unfold analyze_comments.
    destruct (analyze_loop polarity stop comments analysis_start) as [st|e'] eqn:E;
      simpl; [done|].
    intros [= <-]. by apply Hfrom. }
  split; [|split; [|split]].
  - split; [exact Hraise | intros He; by destruct (Hback _ He)].
  - intros e He. by destruct (Hback e He).
  - intros c Hc Hlack. unfold lacks_permalink in Hlack.
    destruct (data c !! "body") as [body|] eqn:Hb; [|done].
    destruct (data c !! "permalink") as [path|] eqn:Hp; [done|].
    split.
    + apply csv_rows_elem; [done|]. unfold has_body. by rewrite Hb.
    + unfold csv_row, get_default. cbn [nth]. by rewrite Hp.
  - intros Hex. unfold report, save_comments_to_csv. by rewrite (Hraise Hex).
Qed.

(** ** What the analysis returns, from the bodies *)

Lemma analyze_comments_loop (polarity : string → Q) (stop : gset string)
    (comments : list comment) (r : analysis_result) :
  analyze_comments polarity stop comments = Ok r →
  analyze_loop polarity stop comments analysis_start = Ok (totals r) ∧
  r = rank (totals r).
Proof.
  unfold analyze_comments.
  destruct (analyze_loop polarity stop comments analysis_start) as [st|]; simpl; [|done].
  by intros [= <-].
Qed.

Lemma hit_listed (body t : string) (keys : list string) :
  t ∈ keys → hit body keys t = mentions t body.
Proof. intros Ht. unfold hit. by rewrite bool_decide_eq_true_2. Qed.

Lemma hit_unlisted (body t : string) (keys : list string) :
  t ∉ keys → hit body keys t = false.
Proof. intros Ht. unfold hit. by rewrite bool_decide_eq_false_2. Qed.

Lemma filter_hit_unlisted (t : string) (keys bs : list string) :
  t ∉ keys → List.filter (fun b => hit b keys t) bs = [].
Proof.
  intros Ht. induction bs as [|b bs IH]; [done|].
  cbn [List.filter]. by rewrite hit_unlisted.
Qed.

(** X3: when the analysis returns, the positive, neutral and negative
    counts are the numbers of bodies that score above 0.05, within
    [-0.05, 0.05] and below -0.05; every body is in exactly one of the three
    classes. *)
Theorem sentiment_counts_of_run
    (polarity : string → Q) (stop : gset string)
    (comments : list comment) (r : analysis_result) :
  analyze_comments polarity stop comments = Ok r →
  positive (sentiment_data (totals r)) =
    length (List.filter (scores_positive polarity) (bodies comments)) ∧
  neutral (sentiment_data (totals r)) =
    length (List.filter (scores_neutral polarity) (bodies comments)) ∧
  negative (sentiment_data (totals r)) =
    length (List.filter (scores_negative polarity) (bodies comments)) ∧
  (∀ body,
     (scores_positive polarity body = true ↔ (0.05 < polarity body)%Q) ∧
     (scores_negative polarity body = true ↔ (polarity body < -0.05)%Q) ∧
     (scores_neutral polarity body = true ↔
        (-0.05 <= polarity body)%Q ∧ (polarity body <= 0.05)%Q)).
Proof.
  intros [Hloop _]%analyze_comments_loop.
  apply analyze_loop_sentiment in Hloop as (Hp & Hn & Hg).
  split; [exact Hp|]. split; [exact Hn|]. split; [exact Hg|].
  intros body. unfold scores_neutral, scores_positive, scores_negative.
  split; [apply Qltb_lt|]. split; [apply Qltb_lt|].
  rewrite andb_true_iff, !negb_true_iff, !Qltb_ge. tauto.
Qed.

(** X4: when the analysis returns, the count of a topic is the number of
    bodies that mention it and its grouped comments are these bodies, in the
    order of the input; for every key, the count is the number of grouped
    comments, and a key that is no topic has neither. *)
Theorem topic_index_of_run
    (polarity : string → Q) (stop : gset string)
    (comments : list comment) (r : analysis_result) :
  analyze_comments polarity stop comments = Ok r →
  (∀ t, t ∈ topics →
     grouped_get t (topic_comments (totals r)) =
       List.filter (mentions t) (bodies comments) ∧
     counter_get t (topic_counts (totals r)) =
       length (List.filter (mentions t) (bodies comments))) ∧
  (∀ t, t ∉ topics →
     grouped_get t (topic_comments (totals r)) = [] ∧
     counter_get t (topic_counts (totals r)) = 0) ∧
  (∀ t, counter_get t (topic_counts (totals r)) =
        length (grouped_get t (topic_comments (totals r)))).
Proof.
  intros [Hloop _]%analyze_comments_loop.
  pose proof (analyze_loop_tags polarity stop comments _ _ Hloop) as Htags.
  assert (Hin : ∀ t, t ∈ topics →
    List.filter (fun b => hit b topics t) (bodies comments) =
    List.filter (mentions t) (bodies comments)).
  { intros t Ht. apply List.filter_ext. intros b. by apply hit_listed. }
  assert (Hout : ∀ t, t ∉ topics →
    List.filter (fun b => hit b topics t) (bodies comments) = []).
  { intros t Ht. by apply filter_hit_unlisted. }
  split; [|split].
  - intros t Ht. destruct (Htags t) as (Hc & Hg & _).
    rewrite Hc, Hg, (Hin t Ht). done.
  - intros t Ht. destruct (Htags t) as (Hc & Hg & _).
    rewrite Hc, Hg, (Hout t Ht). done.
  - intros t. destruct (Htags t) as (Hc & Hg & _). by rewrite Hc, Hg.
Qed.

(** X5: when the analysis returns, the count of a brand of [BRANDS] is the
    number of bodies that mention it, whatever their case, a key that is no
    brand counts zero, and no count exceeds the number of bodies. *)
Theorem brand_index_of_run
    (polarity : string → Q) (stop : gset string)
    (comments : list comment) (r : analysis_result) :
  analyze_comments polarity stop comments = Ok r →
  (∀ b, b ∈ BRANDS →
     counter_get b (brand_counts (totals r)) =
       length (List.filter (mentions b) (bodies comments))) ∧
  (∀ b, b ∉ BRANDS → counter_get b (brand_counts (totals r)) = 0) ∧
  (∀ b, counter_get b (brand_counts (totals r)) ≤ length (bodies comments)).
Proof.
  intros [Hloop _]%analyze_comments_loop.
  pose proof (analyze_loop_tags polarity stop comments _ _ Hloop) as Htags.
  split; [|split].
  - intros b Hb. destruct (Htags b) as (_ & _ & ->).
    change (counter_get b (brand_counts analysis_start)) with 0.
    rewrite Nat.add_0_l. f_equal.
    apply List.filter_ext. intros body. by apply hit_listed.
  - intros b Hb. destruct (Htags b) as (_ & _ & ->).
    by rewrite filter_hit_unlisted.
  - intros b. destruct (Htags b) as (_ & _ & ->).
    change (counter_get b (brand_counts analysis_start)) with 0.
    rewrite Nat.add_0_l. apply List.filter_length_le.
Qed.

(** ** The word lists of a run *)


Lemma flat_map_split_tokens (bs : list string) :
  Forall is_token (flat_map Str.split bs).
Proof.
  apply Forall_forall. intros w Hw.
  apply list_elem_of_In, in_flat_map in Hw as (body & _ & Hw).
  by apply list_elem_of_In, split_tokens in Hw.
Qed.

(** X7: the text that the run hands to a word cloud is its word list joined
    with single spaces; split at white space again, the text of each of the
    three lists gives that list back, word for word. *)
Theorem word_cloud_text_splits_back
    (polarity : string → Q) (stop : gset string)
    (comments : list comment) (r : analysis_result) :
  analyze_comments polarity stop comments = Ok r →
  Str.split (Str.join " " (all_words (totals r))) = all_words (totals r) ∧
  Str.split (Str.join " " (positive_words (totals r))) = positive_words (totals r) ∧
  Str.split (Str.join " " (negative_words (totals r))) = negative_words (totals r).
Proof.
  intros [Hloop _]%analyze_comments_loop.
  apply analyze_loop_words in Hloop as (Hall & Hpos & Hneg).
  change (all_words analysis_start) with (@nil string) in Hall.
  change (positive_words analysis_start) with (@nil string) in Hpos.
  change (negative_words analysis_start) with (@nil string) in Hneg.
  rewrite app_nil_l in Hall, Hpos, Hneg.
  split; [|split]; apply split_join.
  - rewrite Hall. apply Forall_forall. intros w Hw.
    apply list_elem_of_In, in_flat_map in Hw as (body & _ & Hw).
    apply list_elem_of_In, retained_words_clean in Hw. tauto.
  - rewrite Hpos. apply flat_map_split_tokens.
  - rewrite Hneg. apply flat_map_split_tokens.
Qed.

(** ** The ranked entries *)

Lemma scored_entry_spec (polarity : string → Q) (c : comment) (x : scored) :
  scored_entry polarity c = Some x ↔
  ∃ body path,
    data c !! "body" = Some body ∧ data c !! "permalink" = Some path ∧
    x = (polarity body, body, "https://reddit.com" +:+ path).
Proof.
  unfold scored_entry.
  destruct (data c !! "body") as [body|]; [destruct (data c !! "permalink") as [path|]|].
  - split; [intros [= <-]; by eauto | by intros (? & ? & [= <-] & [= <-] & ->)].
  - split; [done | by intros (? & ? & _ & ? & _)].
  - split; [done | by intros (? & ? & ? & _)].
Qed.

(** X8: when the analysis returns, every entry of the two rankings is the
    entry of a record of the input: its body is the body of that record, its
    score is the score of that body, and its link is the site prefix put
    before the permalink of the record; the scored bodies are the bodies of
    the input, in its order. *)
Theorem ranked_entries_come_from_input
    (polarity : string → Q) (stop : gset string)
    (comments : list comment) (r : analysis_result) :
  analyze_comments polarity stop comments = Ok r →
  map (fun x : scored => x.1.2) (scored_comments (totals r)) = bodies comments ∧
  (∀ x, x ∈ most_positive r ∨ x ∈ most_negative r →
     ∃ c body path,
       c ∈ comments ∧
       data c !! "body" = Some body ∧ data c !! "permalink" = Some path ∧
       x = (polarity body, body, "https://reddit.com" +:+ path)).
Proof.
  intros [Hloop Hrank]%analyze_comments_loop.
  apply analyze_loop_scored in Hloop as [Hsc Hbodies].
  change (scored_comments analysis_start) with (@nil scored) in Hsc.
  rewrite app_nil_l in Hsc. split; [by rewrite Hsc|].
  intros x Hx.
  assert (Hin : x ∈ scored_comments (totals r)).
  { rewrite <- (sort_desc_perm score_below (scored_comments (totals r))).
    rewrite Hrank in Hx. cbn [most_positive most_negative rank] in Hx.
    destruct Hx as [Hx|Hx]; [by eapply subseteq_take | by eapply subseteq_drop]. }
  rewrite Hsc in Hin. apply list_elem_of_omap in Hin as (c & Hc & Hx').
  apply scored_entry_spec in Hx' as (body & path & Hb & Hp & ->).
  by exists c, body, path.
Qed.

Lemma last_drop_lt {A : Type} (l : list A) (k : nat) :
  k < length l → last (drop k l) = last l.
Proof.
  intros Hk. rewrite !last_lookup, length_drop, lookup_drop. f_equal. lia.
Qed.

(** X9: when at least one comment is scored, the first entry of the most
    positive result, which the summary prints as its positive example, has
    the highest score of the run and is, among the comments of that score,
    the first of the input; the last entry of the most negative result has
    the lowest score and is, among the comments of that score, the last of
    the input. *)
Theorem ranking_ends_of_run
    (polarity : string → Q) (stop : gset string)
    (comments : list comment) (r : analysis_result) :
  analyze_comments polarity stop comments = Ok r →
  scored_comments (totals r) ≠ [] →
  ∃ best worst,
    head (most_positive r) = Some best ∧
    last (most_negative r) = Some worst ∧
    (∀ y, y ∈ scored_comments (totals r) →
          (score worst <= score y)%Q ∧ (score y <= score best)%Q) ∧
    head (with_key score (score best) (scored_comments (totals r))) = Some best ∧
    last (with_key score (score worst) (scored_comments (totals r))) = Some worst.
Proof.
  intros [_ Hrank]%analyze_comments_loop Hsome.
  set (collected := scored_comments (totals r)) in *.
  assert (Hlen : length (sort_desc score_below collected) = length collected)
    by apply sort_desc_length.
  assert (Hpos : 0 < length collected) by (destruct collected; [done | simpl; lia]).
  destruct (sort_desc score_below collected) as [|best rest] eqn:Hsorted;
    [simpl in Hlen; lia|].
  destruct (exists_last (l := best :: rest) ltac:(done)) as (front & worst & Hfront).
  exists best, worst.
  destruct (sort_desc_first score collected rest best Hsorted) as [Hmax Hfirst].
  rewrite Hfront in Hsorted.
  destruct (sort_desc_last score collected front worst Hsorted) as [Hmin Hlast].
  rewrite Hrank. cbn [most_positive most_negative rank].
  fold collected. fold score_below in Hsorted. rewrite Hsorted, <- Hfront.
  split; [done|]. split.
  - rewrite last_drop_lt, Hfront by (simpl; lia). apply last_snoc.
  - split; [|done]. intros y Hy. split; [by apply Hmin | by apply Hmax].
Qed.

(** ** A short run *)

Lemma summary_of_ranked_examples (comments : list comment) (sc bc tc : Counter)
    (top bottom : scored) (mp mn : list scored) :
  ∃ lines,
    generate_final_summary comments sc bc tc (top :: mp) (bottom :: mn) =
    Printed (lines ++ [ Text "Top Positive Comment Example:"; example_of top;
                        Text "Top Negative Comment Example:"; example_of bottom ])
            None.
Proof.
  unfold generate_final_summary.
  exists ([ Text "--- Final Summary ---";
            TotalComments (length comments);
            TotalSubreddits (length sc);
            Text "Most Mentioned Brands:" ] ++
          map (fun '(brand, count) => Mentions brand count) (most_common 5 bc) ++
          [ Text "Most Frequent Topics:" ] ++
          map (fun '(topic, count) => Mentions topic count) (most_common 5 tc) ++
          [ Text "Top Users (Potential Influencers):" ] ++
          map (fun '(user, count) => UserComments user count)
            (most_common 5 (counter_of (authors comments)))).
  f_equal. by rewrite <- !app_assoc.
Qed.

(** X10: with at least one and at most ten scored comments, the two rankings
    are the same list, the whole sort, so the summary prints the highest
    scoring comment twice: as its positive and as its negative example. *)
Theorem short_run_repeats_example
    (polarity : string → Q) (stop : gset string)
    (comments : list comment) (r : analysis_result) (sc bc tc : Counter) :
  analyze_comments polarity stop comments = Ok r →
  1 ≤ length (List.filter has_body comments) →
  length (List.filter has_body comments) ≤ 10 →
  most_negative r = most_positive r ∧
  most_positive r = sort_desc score_below (scored_comments (totals r)) ∧
  ∃ best lines,
    head (most_positive r) = Some best ∧
    (∀ y, y ∈ scored_comments (totals r) → (score y <= score best)%Q) ∧
    generate_final_summary comments sc bc tc (most_positive r) (most_negative r) =
    Printed (lines ++ [ Text "Top Positive Comment Example:"; example_of best;
                        Text "Top Negative Comment Example:"; example_of best ])
            None.
Proof.
  intros [Hloop Hrank]%analyze_comments_loop Hone Hten.
  apply analyze_loop_counts in Hloop as [_ Hlen].
  change (length (scored_comments analysis_start)) with 0 in Hlen.
  set (collected := scored_comments (totals r)) in *.
  assert (Hs : length (sort_desc score_below collected) = length collected)
    by apply sort_desc_length.
  destruct (slices_of_short_list (sort_desc score_below collected)) as [Htake Hdrop];
    [lia|].
  assert (Hmp : most_positive r = sort_desc score_below collected).
  { rewrite Hrank. cbn [most_positive rank]. exact Htake. }
  assert (Hmn : most_negative r = sort_desc score_below collected).
  { rewrite Hrank. cbn [most_negative rank]. exact Hdrop. }
  split; [by rewrite Hmp, Hmn|]. split; [exact Hmp|].
  rewrite Hmp, Hmn.
  destruct (sort_desc score_below collected) as [|best rest] eqn:Hsorted;
    [simpl in Hs; lia|].
  destruct (sort_desc_first score collected rest best Hsorted) as [Hmax _].
  destruct (summary_of_ranked_examples comments sc bc tc best best rest rest)
    as [lines Hlines].
  by exists best, lines.
Qed.

(** ** Counters *)

Lemma counter_keys_incr (k : string) (c : Counter) :
  counter_keys (counter_incr k c) =
  if decide (k ∈ counter_keys c) then counter_keys c else counter_keys c ++ [k].
Proof.
  unfold counter_keys. induction c as [|[k' n] c IH]; cbn [counter_incr map fst].
  - by rewrite decide_False by apply not_elem_of_nil.
  - destruct (decide (k = k')) as [->|Hne]; cbn [map fst].
    + by rewrite decide_True by (by left).
    + rewrite IH. destruct (decide (k ∈ map fst c)) as [Hin|Hout].
      * by rewrite decide_True by (by right).
      * rewrite decide_False; [done|]. by intros [?|?]%elem_of_cons.
Qed.

Lemma counter_total_incr (k : string) (c : Counter) :
  counter_total (counter_incr k c) = S (counter_total c).
Proof.
  unfold counter_total. induction c as [|[k' n] c IH]; cbn [counter_incr foldr snd].
  - done.
  - destruct (decide (k = k')); cbn [foldr snd]; [lia | rewrite IH; lia].
Qed.

Lemma counter_wf_incr (k : string) (c : Counter) :
  counter_wf c → counter_wf (counter_incr k c).
Proof.
  intros [Hnd Hpos]. split.
  - rewrite counter_keys_incr. case_decide; [done|].
    apply NoDup_app. split; [done|]. split; [|apply NoDup_singleton].
    intros x Hx ->%list_elem_of_singleton. done.
  - clear Hnd. induction Hpos as [|[k' n] c Hn Hpos IH]; cbn [counter_incr].
    + by repeat constructor.
    + destruct (decide (k = k')); constructor; simpl in *; try done; lia.
Qed.

Lemma counter_get_listed (k : string) (c : Counter) :
  counter_wf c → (k ∈ counter_keys c ↔ 1 ≤ counter_get k c).
Proof.
  unfold counter_keys. intros [_ Hpos].
  induction Hpos as [|[k' n] c Hn Hpos IH]; cbn [counter_get map fst].
  - split; [by intros ?%elem_of_nil | lia].
  - rewrite elem_of_cons. destruct (decide (k = k')) as [->|Hne].
    + split; [done | by left].
    + rewrite <- IH. split; [by intros [?|?] | by right].
Qed.

Lemma counter_get_elem (k : string) (n : nat) (c : Counter) :
  counter_wf c → (k, n) ∈ c → counter_get k c = n.
Proof.
  unfold counter_wf, counter_keys. intros [Hnd _].
  induction c as [|[k' n'] c IH]; [by intros ?%elem_of_nil|].
  cbn [map fst] in Hnd. apply NoDup_cons in Hnd as [Hk Hnd].
  intros [[= -> ->]|Hin]%elem_of_cons; cbn [counter_get].
  - by rewrite decide_True.
  - rewrite decide_False; [by apply IH|].
    intros ->. apply Hk. apply list_elem_of_fmap. by exists (k', n).
Qed.

Lemma counter_of_wf (keys : list string) : counter_wf (counter_of keys).
Proof.
  unfold counter_of.
  assert (H : ∀ c, counter_wf c → counter_wf (fold_left (fun c k => counter_incr k c) keys c)).
  { induction keys as [|k keys IH]; intros c Hc; [done|].
    cbn [fold_left]. by apply IH, counter_wf_incr. }
  apply H. split; [constructor | constructor].
Qed.

(** ** The counts of the fetch *)

Lemma fetch_loop_wf (submissions : list (submission * response))
    (all_comments : list comment) (counts : Counter) :
  counter_wf counts →
  counter_wf (fetch_loop submissions all_comments counts).2 ∧
  counter_total (fetch_loop submissions all_comments counts).2 =
    counter_total counts + length submissions.
Proof.
  revert all_comments counts.
  induction submissions as [|[sub resp] rest IH]; intros all_comments counts Hwf.
  - simpl. split; [done | lia].
  - cbn [fetch_loop length].
    destruct (decide (status_code resp = 200%Z));
      (edestruct IH as [Hwf' ->]; [by apply counter_wf_incr|]);
      (split; [exact Hwf'|]); rewrite counter_total_incr; lia.
Qed.

Lemma recount_wf (comments : list comment) (counts : Counter) :
  counter_wf counts →
  Forall (fun c => is_Some (subreddit c)) comments →
  counter_wf (recount comments counts) ∧
  counter_total (recount comments counts) = counter_total counts + length comments.
Proof.
  unfold recount. intros Hwf Htag. revert counts Hwf.
  induction Htag as [|c rest [name Hname] Htag IH]; intros counts Hwf.
  - simpl. split; [done | lia].
  - cbn [fold_left length]. rewrite Hname.
    destruct (IH (counter_incr name counts)) as [Hwf' ->]; [by apply counter_wf_incr|].
    split; [exact Hwf'|]. rewrite counter_total_incr. lia.
Qed.

Lemma kept_tagged (submissions : list (submission * response)) (c : comment) :
  c ∈ flat_map kept submissions →
  ∃ p, p ∈ submissions ∧ subreddit c = Some (submission_subreddit p.1).
Proof.
  intros (p & Hp & Hc)%list_elem_of_In%in_flat_map.
  exists p. split; [by apply list_elem_of_In|].
  unfold kept in Hc. case_decide; [|done].
  by apply in_map_iff in Hc as (c0 & <- & _).
Qed.

Lemma submissions_in_pos (name : string) (submissions : list (submission * response)) :
  1 ≤ submissions_in name submissions ↔
  ∃ p, p ∈ submissions ∧ submission_subreddit p.1 = name.
Proof.
  unfold submissions_in. split.
  - intros Hpos.
    destruct (List.filter _ submissions) as [|p l] eqn:E; [simpl in Hpos; lia|].
    assert (Hp : In p (List.filter
      (fun p => bool_decide (submission_subreddit p.1 = name)) submissions))
      by (rewrite E; by left).
    apply filter_In in Hp as [Hp Hn]. apply bool_decide_eq_true in Hn.
    exists p. by rewrite list_elem_of_In.
  - intros (p & Hp & Hn).
    assert (Hin : In p (List.filter
      (fun p => bool_decide (submission_subreddit p.1 = name)) submissions)).
    { apply filter_In. split; [by apply list_elem_of_In | by apply bool_decide_eq_true]. }
    destruct (List.filter _ submissions); [done | simpl; lia].
Qed.

Lemma comments_in_pos (name : string) (comments : list comment) :
  1 ≤ comments_in name comments → ∃ c, c ∈ comments ∧ subreddit c = Some name.
Proof.
  unfold comments_in. intros Hpos.
  destruct (List.filter _ comments) as [|c l] eqn:E; [simpl in Hpos; lia|].
  assert (Hc : In c (List.filter
    (fun c => bool_decide (subreddit c = Some name)) comments))
    by (rewrite E; by left).
  apply filter_In in Hc as [Hc Hn]. apply bool_decide_eq_true in Hn.
  exists c. by rewrite list_elem_of_In.
Qed.

(** X11: the counts that the fetch returns hold each subreddit once, with a
    count of at least one; their keys are the subreddits of the submissions
    of the search result, those whose comment request failed included; every
    collected comment carries the subreddit of one of these submissions; and
    the counts add up to the number of submissions plus the number of
    collected comments. *)
Theorem subreddit_counts_of_fetch (submissions : list (submission * response)) :
  ∃ counts,
    fetched_counts (fetch_ceiling_fan_comments 200 submissions) = Some counts ∧
    counter_wf counts ∧
    (∀ name, name ∈ counter_keys counts ↔
             ∃ p, p ∈ submissions ∧ submission_subreddit p.1 = name) ∧
    (∀ c, c ∈ flat_map kept submissions →
          ∃ p, p ∈ submissions ∧ subreddit c = Some (submission_subreddit p.1)) ∧
    counter_total counts = length submissions + length (flat_map kept submissions).
Proof.
  unfold fetch_ceiling_fan_comments. rewrite decide_True by done.
  pose proof (fetch_loop_comments submissions [] []) as Hc.
  pose proof (fetch_loop_counts submissions [] []) as Hn.
  destruct (fetch_loop_wf submissions [] []) as [Hwf Htotal]; [by split; constructor|].
  destruct (fetch_loop submissions [] []) as [all_comments counts].
  cbn [fst snd app] in *. subst all_comments.
  assert (Htag : Forall (fun c => is_Some (subreddit c)) (flat_map kept submissions)).
  { apply Forall_forall. intros c (p & _ & ->)%kept_tagged. by eexists. }
  destruct (recount_wf (flat_map kept submissions) counts Hwf Htag) as [Hwf' Htotal'].
  exists (recount (flat_map kept submissions) counts).
  split; [done|]. split; [exact Hwf'|]. split; [|split].
  - intros name. rewrite (counter_get_listed name _ Hwf'), recount_counts, Hn.
    change (counter_get name []) with 0. rewrite Nat.add_0_l. split.
    + intros Hpos.
      destruct (decide (1 ≤ submissions_in name submissions)) as [Hs|Hs];
        [by apply submissions_in_pos|].
      destruct (comments_in_pos name (flat_map kept submissions)) as (c & Hc & Hname);
        [lia|].
      apply kept_tagged in Hc as (p & Hp & Hp'). exists p. split; [done|]. congruence.
    + intros Hp%submissions_in_pos. lia.
  - apply kept_tagged.
  - rewrite Htotal', Htotal. change (counter_total []) with 0. lia.
Qed.

(** ** Drawing and reporting *)

Lemma sort_desc_nil {A : Type} (below : A → A → bool) (l : list A) :
  sort_desc below l = [] ↔ l = [].
Proof.
  split; [|by intros ->].
  intros H. apply (f_equal length) in H. rewrite sort_desc_length in H.
  by destruct l.
Qed.

Lemma counter_of_nil (keys : list string) : counter_of keys = [] ↔ keys = [].
Proof.
  split; [|by intros ->].
  destruct keys as [|k keys]; [done|]. intros H.
  pose proof (counter_of_counts (k :: keys) [] k) as Hk.
  fold (counter_of (k :: keys)) in Hk. rewrite H in Hk.
  cbn [List.filter counter_get] in Hk.
  rewrite bool_decide_eq_true_2 in Hk by done. simpl in Hk. lia.
Qed.

Lemma most_common_nil (n : nat) (c : Counter) :
  0 < n → (most_common n c = [] ↔ c = []).
Proof.
  intros Hn. unfold most_common. split; [|intros ->; apply take_nil].
  intros H. apply (f_equal length) in H.
  rewrite length_take, sort_desc_length in H. destruct c; [done | simpl in H; lia].
Qed.

Lemma unzip_pairs_cases {A B : Type} (pairs : list (A * B)) :
  (pairs = [] ∧ unzip_pairs pairs = Raise ValueError) ∨
  (pairs ≠ [] ∧ unzip_pairs pairs = Ok (map fst pairs, map snd pairs)).
Proof. destruct pairs; [by left | by right]. Qed.

Section Drawing.
Context (show : figure → result unit) (sd : sentiment_counts) (counts : Counter)
  (all_words positive_words negative_words : list string) (brands : Counter).

Lemma visualize_results_drawn :
  (∀ f, show f = Ok ()) →
  (all_words ≠ [] ∧ counts ≠ [] ∧ brands ≠ [] ↔
     visualize_results show sd counts all_words positive_words negative_words brands
     = Ok ()) ∧
  (all_words = [] ∨ counts = [] ∨ brands = [] ↔
     visualize_results show sd counts all_words positive_words negative_words brands
     = Raise ValueError).
Proof.
  assert (Hw : most_common 20 (counter_of all_words) = [] ↔ all_words = []).
  { rewrite most_common_nil by lia. apply counter_of_nil. }
  pose proof (sort_desc_nil by_count_below counts) as Hc.
  pose proof (sort_desc_nil by_count_below brands) as Hb.
  intros Hshow. unfold visualize_results. rewrite !Hshow. cbn [bind].
  destruct (unzip_pairs_cases (most_common 20 (counter_of all_words)))
    as [[E1 ->]|[E1 ->]]; cbn [bind].
  { apply Hw in E1. split; split; try done; [by intros (? & _) | by left]. }
  rewrite Hshow. cbn [bind].
  destruct (unzip_pairs_cases (sort_desc by_count_below counts))
    as [[E2 ->]|[E2 ->]]; cbn [bind].
  { apply Hc in E2. split; split; try done; [by intros (_ & ? & _) | by right; left]. }
  rewrite Hshow. cbn [bind].
  destruct (unzip_pairs_cases (sort_desc by_count_below brands))
    as [[E3 ->]|[E3 ->]]; cbn [bind].
  { apply Hb in E3. split; split; try done; [by intros (_ & _ & ?) | by right; right]. }
  rewrite Hshow. rewrite Hw in E1. rewrite Hc in E2. rewrite Hb in E3.
  split; split; try done. by intros [?|[?|?]].
Qed.

Lemma visualize_results_missing :
  all_words = [] ∨ counts = [] ∨ brands = [] →
  ∃ e, visualize_results show sd counts all_words positive_words negative_words brands
       = Raise e.
Proof.
  assert (Hw : most_common 20 (counter_of all_words) = [] ↔ all_words = []).
  { rewrite most_common_nil by lia. apply counter_of_nil. }
  pose proof (sort_desc_nil by_count_below counts) as Hc.
  pose proof (sort_desc_nil by_count_below brands) as Hb.
  intros Hmiss. unfold visualize_results.
  destruct (show (PieChart sd)) as [[]|e1]; cbn [bind]; [|by eexists].
  destruct (show (WordCloudFigure _)) as [[]|e2]; cbn [bind]; [|by eexists].
  destruct (show (WordCloudPair _ _)) as [[]|e3]; cbn [bind]; [|by eexists].
  destruct (unzip_pairs_cases (most_common 20 (counter_of all_words)))
    as [[E1 ->]|[E1 ->]]; cbn [bind]; [by eexists|].
  destruct (show (BarChart _ _ _)) as [[]|e4]; cbn [bind]; [|by eexists].
  destruct (unzip_pairs_cases (sort_desc by_count_below counts))
    as [[E2 ->]|[E2 ->]]; cbn [bind]; [by eexists|].
  destruct (show (BarChart _ _ _)) as [[]|e5]; cbn [bind]; [|by eexists].
  destruct (unzip_pairs_cases (sort_desc by_count_below brands))
    as [[E3 ->]|[E3 ->]]; cbn [bind]; [by eexists|].
  rewrite Hw in E1. rewrite Hc in E2. rewrite Hb in E3.
  by destruct Hmiss as [?|[?|?]].
Qed.

End Drawing.

(** X12: when the plotting library draws every figure, the drawing step
    returns exactly when there is at least one retained word, one subreddit
    count and one brand count, and it ends in a [ValueError] exactly when
    one of the three is missing; with any plotting library it ends in an
    exception when one of the three is missing. *)
Theorem visualize_results_returns_iff
    (show : figure → result unit) (sd : sentiment_counts) (counts : Counter)
    (all_words positive_words negative_words : list string) (brands : Counter) :
  ((∀ f, show f = Ok ()) →
     (all_words ≠ [] ∧ counts ≠ [] ∧ brands ≠ [] ↔
        visualize_results show sd counts all_words positive_words negative_words brands
        = Ok ()) ∧
     (all_words = [] ∨ counts = [] ∨ brands = [] ↔
        visualize_results show sd counts all_words positive_words negative_words brands
        = Raise ValueError)) ∧
  (all_words = [] ∨ counts = [] ∨ brands = [] →
     ∃ e, visualize_results show sd counts all_words positive_words negative_words brands
          = Raise e).
Proof.
  split; [apply visualize_results_drawn | apply visualize_results_missing].
Qed.

(** ** The whole report *)

Lemma tag_brands_wf (body : string) (counts : Counter) :
  counter_wf counts → counter_wf (tag_brands body counts).
Proof.
  unfold tag_brands. revert counts.
  induction BRANDS as [|b bs IH]; intros counts Hwf; [done|].
  cbn [fold_left]. apply IH. unfold tag_brand.
  destruct (mentions b body); [by apply counter_wf_incr | done].
Qed.

Lemma analyze_loop_brands_wf (polarity : string → Q) (stop : gset string)
    (comments : list comment) (st st' : analysis) :
  analyze_loop polarity stop comments st = Ok st' →
  counter_wf (brand_counts st) → counter_wf (brand_counts st').
Proof.
  revert comments st st'.
  apply (analyze_loop_induction polarity stop
           (fun _ st st' => counter_wf (brand_counts st) → counter_wf (brand_counts st'))).
  - done.
  - done.
  - intros c rest st st1 st' body Hb Hst IH Hwf. apply IH.
    destruct (analyze_comment_with_body polarity stop st st1 c body Hb Hst)
      as (path & _ & _ & _ & _ & _ & -> & _).
    by apply tag_brands_wf.
Qed.

Lemma counter_nil_iff (c : Counter) :
  counter_wf c → (c = [] ↔ ∀ k, counter_get k c = 0).
Proof.
  intros [_ Hpos]. split; [by intros ->|].
  destruct c as [|[k n] c]; [done|]. intros H. specialize (H k).
  cbn [counter_get] in H. rewrite decide_True in H by done.
  apply Forall_cons in Hpos as [Hn _]. simpl in Hn. lia.
Qed.

Lemma filter_nil_iff {A : Type} (f : A → bool) (l : list A) :
  length (List.filter f l) = 0 ↔ ∀ x, x ∈ l → f x = false.
Proof.
  induction l as [|a l IH]; cbn [List.filter].
  - split; [by intros _ x ?%elem_of_nil | done].
  - destruct (f a) eqn:E; cbn [length].
    + split; [lia|]. intros H. specialize (H a ltac:(by left)). congruence.
    + rewrite IH. split.
      * intros H x [->|Hx]%elem_of_cons; [done | by apply H].
      * intros H x Hx. apply H. by right.
Qed.

(** No brand is counted exactly when no body mentions a brand. *)
Lemma brand_counts_nil (polarity : string → Q) (stop : gset string)
    (comments : list comment) (r : analysis_result) :
  analyze_comments polarity stop comments = Ok r →
  (brand_counts (totals r) = [] ↔
   ∀ b body, b ∈ BRANDS → body ∈ bodies comments → mentions b body = false).
Proof.
  intros [Hloop _]%analyze_comments_loop.
  pose proof (analyze_loop_tags polarity stop comments _ _ Hloop) as Htags.
  assert (Hwf : counter_wf (brand_counts (totals r))).
  { eapply analyze_loop_brands_wf; [exact Hloop|]. split; constructor. }
  rewrite (counter_nil_iff _ Hwf). split.
  - intros Hzero b body Hb Hbody.
    destruct (Htags b) as (_ & _ & Hc). rewrite Hzero in Hc.
    change (counter_get b (brand_counts analysis_start)) with 0 in Hc.
    symmetry in Hc. rewrite Nat.add_0_l in Hc.
    rewrite filter_nil_iff in Hc. rewrite <- (hit_listed body b BRANDS Hb).
    by apply Hc.
  - intros Hnone b. destruct (Htags b) as (_ & _ & ->).
    change (counter_get b (brand_counts analysis_start)) with 0.
    rewrite Nat.add_0_l. apply filter_nil_iff. intros body Hbody.
    destruct (decide (b ∈ BRANDS)) as [Hb|Hb].
    + rewrite hit_listed by done. by apply Hnone.
    + by apply hit_unlisted.
Qed.

Lemma rank_nonempty (st : analysis) :
  scored_comments st ≠ [] →
  ∃ top mp bottom mn,
    most_positive (rank st) = top :: mp ∧ most_negative (rank st) = bottom :: mn.
Proof.
  intros Hsome. cbn [rank most_positive most_negative].
  pose proof (sort_desc_length score_below (scored_comments st)) as Hlen.
  assert (Hpos : 0 < length (scored_comments st))
    by (destruct (scored_comments st); [done | simpl; lia]).
  assert (H1 : 0 < length (take 10 (sort_desc score_below (scored_comments st))))
    by (rewrite length_take; lia).
  assert (H2 : 0 < length (drop (length (sort_desc score_below (scored_comments st)) - 10)
                              (sort_desc score_below (scored_comments st))))
    by (rewrite length_drop; lia).
  destruct (take 10 _) as [|top mp]; [simpl in H1; lia|].
  destruct (drop _ _) as [|bottom mn]; [simpl in H2; lia|].
  by exists top, mp, bottom, mn.
Qed.

Lemma all_words_need_scored (polarity : string → Q) (stop : gset string)
    (comments : list comment) (st : analysis) :
  analyze_loop polarity stop comments analysis_start = Ok st →
  all_words st ≠ [] → scored_comments st ≠ [].
Proof.
  intros Hloop Hwords Hnone.
  destruct (analyze_loop_scored polarity stop comments _ _ Hloop) as [Hsc Hbodies].
  destruct (analyze_loop_words polarity stop comments _ _ Hloop) as (Hall & _ & _).
  rewrite Hnone in Hsc. symmetry in Hsc. apply app_eq_nil in Hsc as [_ Hsc].
  rewrite Hsc in Hbodies. simpl in Hbodies. rewrite <- Hbodies in Hall.
  by rewrite Hall in Hwords.
Qed.

Section Reporting.
Context (polarity : string → Q) (stop : gset string) (show : figure → result unit).

(** The run seen from the analysis and the drawing step. *)
Lemma report_cases (comments : list comment) (counts : Counter) (r : analysis_result) :
  analyze_comments polarity stop comments = Ok r →
  let t := totals r in
  let before :=
    [NumberOfComments (length comments); SavedTo "fetched_comments.csv"] ++
    print_comments_grouped_by_topic (topic_comments t) in
  let rows := Some (csv_header :: csv_rows comments) in
  match visualize_results show (sentiment_data t) counts
          (all_words t) (positive_words t) (negative_words t) (brand_counts t) with
  | Raise e => report polarity stop show comments counts = Run before rows (Some e)
  | Ok _ =>
      report polarity stop show comments counts =
      Run (before ++ printed_lines
             (generate_final_summary comments counts (brand_counts t) (topic_counts t)
                (most_positive r) (most_negative r)))
          rows
          (printed_raised
             (generate_final_summary comments counts (brand_counts t) (topic_counts t)
                (most_positive r) (most_negative r)))
  end.
Proof.
  intros Hr t before rows. unfold report, save_comments_to_csv. rewrite Hr.
  fold t. by destruct (visualize_results _ _ _ _ _ _ _).
Qed.

End Reporting.

(** X13: when the plotting library draws every figure and the analysis
    returns, a run in which no body mentions one of the brands ends in a
    [ValueError] before the summary: it has counted the comments, written
    the CSV file and printed the grouped comments, and nothing more. *)
Theorem run_without_brand_mention_fails
    (polarity : string → Q) (stop : gset string) (show : figure → result unit)
    (comments : list comment) (counts : Counter) (r : analysis_result) :
  (∀ f, show f = Ok ()) →
  analyze_comments polarity stop comments = Ok r →
  (∀ b body, b ∈ BRANDS → body ∈ bodies comments → mentions b body = false) →
  report polarity stop show comments counts =
  Run ([NumberOfComments (length comments); SavedTo "fetched_comments.csv"] ++
       print_comments_grouped_by_topic (topic_comments (totals r)))
      (Some (csv_header :: csv_rows comments))
      (Some ValueError).
Proof.
  intros Hshow Hr Hnone.
  pose proof (report_cases polarity stop show comments counts r Hr) as Hcases.
  cbv zeta in Hcases.
  apply (brand_counts_nil polarity stop comments r Hr) in Hnone.
  destruct (visualize_results_drawn show (sentiment_data (totals r)) counts
              (all_words (totals r)) (positive_words (totals r))
              (negative_words (totals r)) (brand_counts (totals r)) Hshow)
    as [_ [Hmiss _]].
  rewrite Hmiss in Hcases by (by right; right). exact Hcases.
Qed.

(** X14: when the plotting library draws every figure and the analysis
    returns, the run completes without an exception exactly when there is at
    least one retained word, one subreddit count and one brand count; it
    then ends by printing the first entry of the most negative result, and
    otherwise it ends in a [ValueError]. *)
Theorem report_completes_iff
    (polarity : string → Q) (stop : gset string) (show : figure → result unit)
    (comments : list comment) (counts : Counter) (r : analysis_result) :
  (∀ f, show f = Ok ()) →
  analyze_comments polarity stop comments = Ok r →
  (failure (report polarity stop show comments counts) = None ↔
     all_words (totals r) ≠ [] ∧ counts ≠ [] ∧ brand_counts (totals r) ≠ []) ∧
  (failure (report polarity stop show comments counts) = None →
     ∃ lines bottom,
       head (most_negative r) = Some bottom ∧
       stdout (report polarity stop show comments counts) =
         lines ++ [Text "Top Negative Comment Example:"; example_of bottom]) ∧
  (failure (report polarity stop show comments counts) ≠ None →
     failure (report polarity stop show comments counts) = Some ValueError).
Proof.
  intros Hshow Hr.
  pose proof (report_cases polarity stop show comments counts r Hr) as Hcases.
  cbv zeta in Hcases.
  destruct (visualize_results_drawn show (sentiment_data (totals r)) counts
              (all_words (totals r)) (positive_words (totals r))
              (negative_words (totals r)) (brand_counts (totals r)) Hshow)
    as [Hok Hmiss].
  destruct (analyze_comments_loop polarity stop comments r Hr) as [Hloop Hrank].
  destruct (decide (all_words (totals r) ≠ [] ∧ counts ≠ [] ∧
                    brand_counts (totals r) ≠ [])) as [Hall|Hnot].
  - rewrite (proj1 Hok Hall) in Hcases.
    destruct (rank_nonempty (totals r)) as (top & mp & bottom & mn & Hmp & Hmn).
    { eapply all_words_need_scored; [exact Hloop | tauto]. }
    rewrite <- Hrank in Hmp, Hmn. rewrite Hmp, Hmn in Hcases.
    destruct (summary_of_ranked comments counts (brand_counts (totals r))
                (topic_counts (totals r)) top bottom mp mn) as [lines Hlines].
    rewrite Hlines in Hcases. cbn [printed_lines printed_raised] in Hcases.
    rewrite Hcases. cbn [failure stdout]. split; [done|]. split; [|done].
    intros _. eexists _, bottom. split; [by rewrite Hmn|].
    by rewrite app_assoc.
  - assert (Hgone : all_words (totals r) = [] ∨ counts = [] ∨
                    brand_counts (totals r) = []).
    { destruct (all_words (totals r)); [by left|].
      destruct counts; [by right; left|].
      destruct (brand_counts (totals r)); [by right; right|].
      exfalso. by apply Hnot. }
    rewrite (proj1 Hmiss Hgone) in Hcases. rewrite Hcases. cbn [failure].
    split; [split; [done | by intros ?]|]. split; done.
Qed.

(** ** The most common items *)

Lemma insert_desc_ext {A : Type} (below below' : A → A → bool) (x : A) (l : list A) :
  (∀ x y, below x y = below' x y) → insert_desc below x l = insert_desc below' x l.
Proof.
  intros Hext. induction l as [|y l IH]; [done|].
  simpl. by rewrite Hext, IH.
Qed.

Lemma sort_desc_ext {A : Type} (below below' : A → A → bool) (l : list A) :
  (∀ x y, below x y = below' x y) → sort_desc below l = sort_desc below' l.
Proof.
  intros Hext. induction l as [|x l IH]; [done|].
  simpl. by rewrite IH, (insert_desc_ext below below').
Qed.

Lemma by_count_below_key (x y : string * nat) :
  by_count_below x y = key_below count_key x y.
Proof.
  unfold by_count_below, key_below, count_key.
  destruct (x.2 <? y.2) eqn:E; symmetry.
  - apply Qltb_lt. rewrite <- Zlt_Qlt. apply Nat.ltb_lt in E. lia.
  - apply Qltb_ge. rewrite <- Zle_Qle. apply Nat.ltb_ge in E. lia.
Qed.

Lemma count_key_le (x y : string * nat) :
  (count_key y <= count_key x)%Q ↔ y.2 ≤ x.2.
Proof. unfold count_key. rewrite <- Zle_Qle. lia. Qed.

(** [most_common n] takes [n] items off the front of the counter sorted by
    falling count: the items taken are in falling order, and none of the
    items left has a larger count than an item taken. *)
Lemma most_common_spec (n : nat) (c : Counter) :
  ∃ rest,
    most_common n c ++ rest ≡ₚ c ∧
    length (most_common n c) = n `min` length c ∧
    (∀ i j x y, i < j → most_common n c !! i = Some x → most_common n c !! j = Some y →
                y.2 ≤ x.2) ∧
    (∀ x y, x ∈ most_common n c → y ∈ rest → y.2 ≤ x.2).
Proof.
  unfold most_common.
  rewrite (sort_desc_ext by_count_below (key_below count_key) c by_count_below_key).
  pose proof (sort_desc_descending count_key c) as Hd.
  pose proof (sort_desc_perm (key_below count_key) c) as Hp.
  pose proof (sort_desc_length (key_below count_key) c) as Hl.
  set (sorted := sort_desc (key_below count_key) c) in *.
  exists (drop n sorted). split; [by rewrite take_drop|].
  split; [by rewrite length_take, Hl|]. split.
  - intros i j x y Hij Hi Hj. apply count_key_le.
    apply lookup_take_Some in Hi as [Hi _]. apply lookup_take_Some in Hj as [Hj _].
    by eapply (descending_lookup count_key sorted i j).
  - intros x y [i Hi]%list_elem_of_lookup_1 [j Hj]%list_elem_of_lookup_1.
    apply lookup_take_Some in Hi as [Hi Hin]. rewrite lookup_drop in Hj.
    apply count_key_le.
    eapply (descending_lookup count_key sorted i (n + j)); [done|lia|done..].
Qed.

Lemma counter_listed_elem (k : string) (c : Counter) :
  k ∈ counter_keys c → (k, counter_get k c) ∈ c.
Proof.
  unfold counter_keys. induction c as [|[k' n] c IH]; [by intros ?%elem_of_nil|].
  cbn [map fst counter_get]. destruct (decide (k = k')) as [->|Hne].
  - intros _. by left.
  - intros [?|Hin]%elem_of_cons; [done|]. right. by apply IH.
Qed.

Lemma counter_of_get (keys : list string) (k : string) :
  counter_get k (counter_of keys) =
  length (List.filter (fun k' => bool_decide (k' = k)) keys).
Proof. unfold counter_of. by rewrite counter_of_counts. Qed.

Lemma mentions_lines_no_user (c : Counter) (user : string) (n : nat) :
  UserComments user n ∉ map (fun '(name, count) => Mentions name count) c.
Proof. by intros ([? ?] & ? & _)%list_elem_of_fmap. Qed.

Lemma summary_user_lines (comments : list comment) (sc bc tc : Counter)
    (mp mn : list scored) (user : string) (n : nat) :
  UserComments user n ∈
    printed_lines (generate_final_summary comments sc bc tc mp mn) ↔
  (user, n) ∈ most_common 5 (counter_of (authors comments)).
Proof.
  set (top_users := most_common 5 (counter_of (authors comments))).
  assert (Hshape : ∃ post,
    printed_lines (generate_final_summary comments sc bc tc mp mn) =
    [ Text "--- Final Summary ---"; TotalComments (length comments);
      TotalSubreddits (length sc); Text "Most Mentioned Brands:" ] ++
    map (fun '(brand, count) => Mentions brand count) (most_common 5 bc) ++
    [ Text "Most Frequent Topics:" ] ++
    map (fun '(topic, count) => Mentions topic count) (most_common 5 tc) ++
    [ Text "Top Users (Potential Influencers):" ] ++
    map (fun '(user, count) => UserComments user count) top_users ++
    post ∧ UserComments user n ∉ post).
  { unfold generate_final_summary. fold top_users.
    destruct mp as [|top mp]; [|destruct mn as [|bottom mn]]; cbn [printed_lines].
    - exists [Text "Top Positive Comment Example:"]. split; [done|].
      by intros ?%list_elem_of_singleton.
    - exists [Text "Top Positive Comment Example:"; example_of top;
              Text "Top Negative Comment Example:"].
      split; [by rewrite <- !app_assoc|].
      rewrite !elem_of_cons, elem_of_nil. by intros [?|[?|[?|?]]].
    - exists [Text "Top Positive Comment Example:"; example_of top;
              Text "Top Negative Comment Example:"; example_of bottom].
      split; [by rewrite <- !app_assoc|].
      rewrite !elem_of_cons, elem_of_nil. by intros [?|[?|[?|[?|?]]]]. }
  destruct Hshape as (post & -> & Hpost).
  pose proof (mentions_lines_no_user (most_common 5 bc) user n) as Hb.
  pose proof (mentions_lines_no_user (most_common 5 tc) user n) as Ht.
  rewrite !elem_of_app, !elem_of_cons, elem_of_nil.
  split.
  - intros H.
    repeat match goal with H : _ ∨ _ |- _ => destruct H as [H|H] end; try done.
    apply list_elem_of_fmap in H as ([u k] & [= -> ->] & Hin). done.
  - intros H. do 5 right. left. apply list_elem_of_fmap. by exists (user, n).
Qed.

(** X15: the summary lists as top users at most five authors, each with the
    number of fetched records that carry the author, the records without a
    body included, in falling order of that number; no author left out has
    more records than an author listed. *)
Theorem top_users_of_summary
    (comments : list comment) (sc bc tc : Counter) (mp mn : list scored) :
  (∀ user n,
     UserComments user n ∈
       printed_lines (generate_final_summary comments sc bc tc mp mn) ↔
     (user, n) ∈ most_common 5 (counter_of (authors comments))) ∧
  length (most_common 5 (counter_of (authors comments))) ≤ 5 ∧
  (∀ user n, (user, n) ∈ most_common 5 (counter_of (authors comments)) →
     1 ≤ n ∧ n = comments_by user comments) ∧
  (∀ i j x y, i < j →
     most_common 5 (counter_of (authors comments)) !! i = Some x →
     most_common 5 (counter_of (authors comments)) !! j = Some y →
     y.2 ≤ x.2) ∧
  (∀ user x,
     user ∉ map fst (most_common 5 (counter_of (authors comments))) →
     x ∈ most_common 5 (counter_of (authors comments)) →
     comments_by user comments ≤ x.2).
Proof.
  pose proof (counter_of_wf (authors comments)) as Hwf.
  destruct (most_common_spec 5 (counter_of (authors comments)))
    as (rest & Hperm & Hlen & Hfall & Hrest).
  set (top_users := most_common 5 (counter_of (authors comments))) in *.
  assert (Hsub : ∀ p, p ∈ top_users → p ∈ counter_of (authors comments)).
  { intros p Hp. rewrite <- Hperm. apply elem_of_app. by left. }
  split; [intros user n; apply summary_user_lines|].
  split; [lia|]. split; [|split; [exact Hfall|]].
  - intros user n Hin. apply Hsub in Hin.
    pose proof (counter_get_elem user n _ Hwf Hin) as Hget.
    split.
    + destruct Hwf as [_ Hpos]. rewrite Forall_forall in Hpos. by apply (Hpos (user, n)).
    + unfold comments_by. by rewrite <- counter_of_get.
  - intros user x Hout Hx.
    destruct (decide (user ∈ counter_keys (counter_of (authors comments)))) as [Hk|Hk].
    + apply counter_listed_elem in Hk.
      assert (Hk' : (user, counter_get user (counter_of (authors comments)))
                    ∈ top_users ++ rest) by (by rewrite Hperm).
      clear Hk. apply elem_of_app in Hk' as [Hk|Hk].
      * exfalso. apply Hout. apply list_elem_of_fmap.
        by exists (user, counter_get user (counter_of (authors comments))).
      * specialize (Hrest x _ Hx Hk). simpl in Hrest.
        unfold comments_by. by rewrite <- counter_of_get.
    + rewrite (counter_get_listed user _ Hwf) in Hk.
      unfold comments_by. rewrite <- counter_of_get. lia.
Qed.

(** ** The main block *)



(** ** The grouped comments *)

Lemma grouped_keys_append (k v : string) (g : Grouped) :
  grouped_keys (grouped_append k v g) =
  if decide (k ∈ grouped_keys g) then grouped_keys g else grouped_keys g ++ [k].
Proof.
  unfold grouped_keys. induction g as [|[k' l] g IH]; cbn [grouped_append map fst].
  - by rewrite decide_False by apply not_elem_of_nil.
  - destruct (decide (k = k')) as [->|Hne]; cbn [map fst].
    + by rewrite decide_True by (by left).
    + rewrite IH. destruct (decide (k ∈ map fst g)) as [Hin|Hout].
      * by rewrite decide_True by (by right).
      * rewrite decide_False; [done|]. by intros [?|?]%elem_of_cons.
Qed.

Lemma grouped_wf_append (k v : string) (g : Grouped) :
  grouped_wf g → grouped_wf (grouped_append k v g).
Proof.
  intros [Hnd Hne]. split.
  - rewrite grouped_keys_append. case_decide; [done|].
    apply NoDup_app. split; [done|]. split; [|apply NoDup_singleton].
    intros x Hx ->%list_elem_of_singleton. done.
  - clear Hnd. induction Hne as [|[k' l] g Hl Hne IH]; cbn [grouped_append].
    + by repeat constructor.
    + destruct (decide (k = k')); constructor; simpl in *; try done.
      by destruct l.
Qed.

Lemma grouped_get_elem (k : string) (l : list string) (g : Grouped) :
  grouped_wf g → (k, l) ∈ g → grouped_get k g = l ∧ l ≠ [].
Proof.
  unfold grouped_wf, grouped_keys. intros [Hnd Hne].
  induction g as [|[k' l'] g IH]; [by intros ?%elem_of_nil|].
  cbn [map fst] in Hnd. apply NoDup_cons in Hnd as [Hk Hnd].
  apply Forall_cons in Hne as [Hl Hne].
  intros [[= -> ->]|Hin]%elem_of_cons; cbn [grouped_get].
  - by rewrite decide_True.
  - rewrite decide_False; [by apply IH|].
    intros ->. apply Hk. apply list_elem_of_fmap. by exists (k', l).
Qed.

Lemma grouped_listed_elem (k : string) (g : Grouped) :
  grouped_get k g ≠ [] → (k, grouped_get k g) ∈ g.
Proof.
  induction g as [|[k' l] g IH]; [done|].
  cbn [grouped_get]. destruct (decide (k = k')) as [->|Hne].
  - intros _. by left.
  - intros H. right. by apply IH.
Qed.

Lemma tag_topics_wf (body : string) (counts : Counter) (grouped : Grouped) :
  grouped_wf grouped → grouped_wf (tag_topics body counts grouped).2.
Proof.
  unfold tag_topics.
  change grouped with (counts, grouped).2 at 1. generalize (counts, grouped).
  induction topics as [|t ts IH]; intros acc Hwf; [done|].
  cbn [fold_left]. apply IH. unfold tag_topic.
  destruct (mentions t body); [by apply grouped_wf_append | done].
Qed.

Lemma analyze_loop_grouped_wf (polarity : string → Q) (stop : gset string)
    (comments : list comment) (st st' : analysis) :
  analyze_loop polarity stop comments st = Ok st' →
  grouped_wf (topic_comments st) → grouped_wf (topic_comments st').
Proof.
  revert comments st st'.
  apply (analyze_loop_induction polarity stop
           (fun _ st st' => grouped_wf (topic_comments st) →
                            grouped_wf (topic_comments st'))).
  - done.
  - done.
  - intros c rest st st1 st' body Hb Hst IH Hwf. apply IH.
    destruct (analyze_comment_with_body polarity stop st st1 c body Hb Hst)
      as (path & _ & _ & _ & _ & -> & _).
    by apply tag_topics_wf.
Qed.

(** The entries of the grouped comments of a run. *)
Lemma topic_comments_entries (polarity : string → Q) (stop : gset string)
    (comments : list comment) (r : analysis_result) (t : string) (l : list string) :
  analyze_comments polarity stop comments = Ok r →
  ((t, l) ∈ topic_comments (totals r) ↔
   t ∈ topics ∧ l = List.filter (mentions t) (bodies comments) ∧ l ≠ []).
Proof.
  intros [Hloop _]%analyze_comments_loop.
  destruct (analyze_loop_tags polarity stop comments _ _ Hloop t) as (_ & Hg & _).
  change (grouped_get t (topic_comments analysis_start)) with (@nil string) in Hg.
  rewrite app_nil_l in Hg.
  assert (Hwf : grouped_wf (topic_comments (totals r))).
  { eapply analyze_loop_grouped_wf; [exact Hloop|]. split; constructor. }
  split.
  - intros Hin. destruct (grouped_get_elem t l _ Hwf Hin) as [Hget Hne].
    rewrite Hg in Hget. destruct (decide (t ∈ topics)) as [Ht|Ht].
    + split; [done|]. split; [|done]. rewrite <- Hget.
      apply List.filter_ext. intros b. by rewrite hit_listed.
    + rewrite filter_hit_unlisted in Hget by done. by subst l.
  - intros (Ht & -> & Hne).
    assert (Hget : grouped_get t (topic_comments (totals r)) =
                   List.filter (mentions t) (bodies comments)).
    { rewrite Hg. apply List.filter_ext. intros b. by rewrite hit_listed. }
    rewrite <- Hget. apply grouped_listed_elem. by rewrite Hget.
Qed.

Lemma grouped_lines (g : Grouped) (x : line) :
  x ∈ print_comments_grouped_by_topic g ↔
  x = Text "--- Comments Grouped by Topic ---" ∨
  ∃ t l, (t, l) ∈ g ∧
         (x = TopicHeader (Str.capitalize t) (length l) ∨
          ∃ b, b ∈ take 5 l ∧ x = TopicItem b).
Proof.
  unfold print_comments_grouped_by_topic. rewrite elem_of_cons.
  apply or_iff_compat_l. rewrite list_elem_of_In, in_flat_map. split.
  - intros ([t l] & Hin & Hx). exists t, l. split; [by apply list_elem_of_In|].
    apply list_elem_of_In, elem_of_cons in Hx as [->|Hx]; [by left|].
    right. apply list_elem_of_fmap in Hx as (b & -> & Hb). by exists b.
  - intros (t & l & Hin & Hx). exists (t, l). split; [by apply list_elem_of_In|].
    apply list_elem_of_In, elem_of_cons. destruct Hx as [->|(b & Hb & ->)]; [by left|].
    right. apply list_elem_of_fmap. by exists b.
Qed.

(** X17: after an analysis that returns, the grouped comments are printed
    with one header for each topic that some body mentions, showing the
    capitalised topic and the number of bodies that mention it, and under it
    no more than the first five of these bodies; nothing is printed for a
    topic that no body mentions. *)
Theorem grouped_topics_printed
    (polarity : string → Q) (stop : gset string)
    (comments : list comment) (r : analysis_result) :
  analyze_comments polarity stop comments = Ok r →
  (∀ T n,
     TopicHeader T n ∈ print_comments_grouped_by_topic (topic_comments (totals r)) ↔
     ∃ t, t ∈ topics ∧ T = Str.capitalize t ∧
          n = length (List.filter (mentions t) (bodies comments)) ∧ 1 ≤ n) ∧
  (∀ b,
     TopicItem b ∈ print_comments_grouped_by_topic (topic_comments (totals r)) ↔
     ∃ t, t ∈ topics ∧ b ∈ take 5 (List.filter (mentions t) (bodies comments))).
Proof.
  intros Hr. split.
  - intros T n. rewrite grouped_lines. split.
    + intros [Hx|(t & l & Hin & Hx)]; [done|].
      destruct Hx as [Hx|(b & _ & Hx)]; [|done]. injection Hx as -> ->.
      apply (topic_comments_entries polarity stop comments r t l Hr) in Hin
        as (Ht & -> & Hne).
      exists t. repeat split; [done|].
      destruct (List.filter _ _); [done | simpl; lia].
    + intros (t & Ht & -> & -> & Hn). right.
      exists t, (List.filter (mentions t) (bodies comments)).
      split; [|by left].
      apply (topic_comments_entries polarity stop comments r t _ Hr).
      split; [done|]. split; [done|].
      intros E. rewrite E in Hn. simpl in Hn. lia.
  - intros b. rewrite grouped_lines. split.
    + intros [Hx|(t & l & Hin & Hx)]; [done|].
      destruct Hx as [Hx|(b' & Hb & Hx)]; [done|]. injection Hx as ->.
      apply (topic_comments_entries polarity stop comments r t l Hr) in Hin
        as (Ht & -> & Hne).
      by exists t.
    + intros (t & Ht & Hb). right.
      exists t, (List.filter (mentions t) (bodies comments)).
      split; [|right; by exists b].
      apply (topic_comments_entries polarity stop comments r t _ Hr).
      split; [done|]. split; [done|].
      intros E. rewrite E in Hb. by apply elem_of_nil in Hb.
Qed.

(** ** Authentication *)

(** X18: [get_oauth_token] returns a token exactly when the request is
    answered with status 200 and a JSON object that holds an access token,
    and it then prints only that the authentication succeeded; an answer
    with status 200 that holds no access token prints the same line, then
    the error, and returns no token; without a token, or with an empty one,
    the main block prints nothing, writes no file and ends without an
    exception. *)
Theorem token_only_from_answered_request
    (polarity : string → Q) (stop : gset string) (show : figure → result unit)
    (outcome : post_outcome) (status : Z) (submissions : list (submission * response)) :
  (∀ token,
     (get_oauth_token outcome).1 = Some token ↔
     ∃ object, outcome = PostAnswered 200 (Some object) ∧
               object !! "access_token" = Some token) ∧
  (is_Some (get_oauth_token outcome).1 → (get_oauth_token outcome).2 = [AuthSucceeded]) ∧
  (∀ object, outcome = PostAnswered 200 (Some object) →
     object !! "access_token" = None →
     get_oauth_token outcome =
       (None, [AuthSucceeded; AuthError (MissingKey "access_token")])) ∧
  ((get_oauth_token outcome).1 = None ∨ (get_oauth_token outcome).1 = Some EmptyString →
     main polarity stop show (get_oauth_token outcome).1 status submissions =
     Run [] None None).
Proof.
  split; [|split; [|split]].
  - intros token. unfold get_oauth_token. split.
    + destruct outcome as [message|st json]; [done|].
      destruct (decide (st = 200%Z)) as [->|Hne];
        [|destruct json; done].
      destruct json as [object|]; [|done].
      destruct (object !! "access_token") as [t|] eqn:E; [|done].
      intros [= <-]. by exists object.
    + intros (object & -> & Htok). rewrite decide_True by done. by rewrite Htok.
  - unfold get_oauth_token. destruct outcome as [message|st json]; [by intros [? ?]|].
    destruct (decide (st = 200%Z)); [|destruct json; by intros [? ?]].
    destruct json as [object|]; [|by intros [? ?]].
    destruct (object !! "access_token"); [done | by intros [? ?]].
  - intros object -> Hnone. unfold get_oauth_token.
    rewrite decide_True by done. by rewrite Hnone.
  - unfold main. by intros [->| ->].
Qed.

(** ** The further properties on the sample runs *)

Lemma thread_analysed :
  analyze_comments Sample.polarity Sample.stop_words Sample.thread =
  Ok Cases.thread_result.
Proof. vm_compute. reflexivity. Qed.

Lemma owners_thread_analysed :
  analyze_comments Sample.polarity Sample.stop_words Cases.owners_thread =
  Ok Cases.owners_result.
Proof. vm_compute. reflexivity. Qed.

Lemma sentiment_counts_of_run_witness :
  analyze_comments Sample.polarity Sample.stop_words Sample.thread =
    Ok Cases.thread_result ∧
  positive (sentiment_data (totals Cases.thread_result)) =
    length (List.filter (scores_positive Sample.polarity) (bodies Sample.thread)).
Proof.
  split; [exact thread_analysed|].
  exact (proj1 (sentiment_counts_of_run _ _ _ _ thread_analysed)).
Defined.

Lemma topic_index_of_run_witness :
  analyze_comments Sample.polarity Sample.stop_words Sample.thread =
    Ok Cases.thread_result ∧
  ∀ t, counter_get t (topic_counts (totals Cases.thread_result)) =
       length (grouped_get t (topic_comments (totals Cases.thread_result))).
Proof.
  split; [exact thread_analysed|].
  exact (proj2 (proj2 (topic_index_of_run _ _ _ _ thread_analysed))).
Defined.

Lemma brand_index_of_run_witness :
  analyze_comments Sample.polarity Sample.stop_words Cases.owners_thread =
    Ok Cases.owners_result ∧
  ∀ b, b ∈ BRANDS →
       counter_get b (brand_counts (totals Cases.owners_result)) =
       length (List.filter (mentions b) (bodies Cases.owners_thread)).
Proof.
  split; [exact owners_thread_analysed|].
  exact (proj1 (brand_index_of_run _ _ _ _ owners_thread_analysed)).
Defined.


Lemma word_cloud_text_splits_back_witness :
  analyze_comments Sample.polarity Sample.stop_words Sample.thread =
    Ok Cases.thread_result ∧
  Str.split (Str.join " " (positive_words (totals Cases.thread_result))) =
    positive_words (totals Cases.thread_result).
Proof.
  split; [exact thread_analysed|].
  exact (proj1 (proj2 (word_cloud_text_splits_back _ _ _ _ thread_analysed))).
Defined.

Lemma ranked_entries_come_from_input_witness :
  analyze_comments Sample.polarity Sample.stop_words Sample.thread =
    Ok Cases.thread_result ∧
  map (fun x : scored => x.1.2) (scored_comments (totals Cases.thread_result)) =
    bodies Sample.thread.
Proof.
  split; [exact thread_analysed|].
  exact (proj1 (ranked_entries_come_from_input _ _ _ _ thread_analysed)).
Defined.

Lemma ranking_ends_of_run_witness :
  analyze_comments Sample.polarity Sample.stop_words Sample.thread =
    Ok Cases.thread_result ∧
  scored_comments (totals Cases.thread_result) ≠ [] ∧
  ∃ best worst,
    head (most_positive Cases.thread_result) = Some best ∧
    last (most_negative Cases.thread_result) = Some worst ∧
    (score worst <= score best)%Q.
Proof.
  split; [exact thread_analysed|].
  assert (Hsome : scored_comments (totals Cases.thread_result) ≠ []) by done.
  split; [exact Hsome|].
  destruct (ranking_ends_of_run _ _ _ _ thread_analysed Hsome)
    as (best & worst & Hbest & Hworst & Hall & Hfirst & _).
  exists best, worst. split; [exact Hbest|]. split; [exact Hworst|].
  assert (Hin : best ∈ scored_comments (totals Cases.thread_result)).
  { apply head_Some in Hfirst as [l Hl]. unfold with_key in Hl.
    assert (Hf : In best (List.filter (fun x => Qeq_bool (score x) (score best))
                            (scored_comments (totals Cases.thread_result))))
      by (rewrite Hl; by left).
    apply filter_In in Hf as [Hf _]. by apply list_elem_of_In. }
  exact (proj1 (Hall best Hin)).
Defined.

Lemma short_run_repeats_example_witness :
  analyze_comments Sample.polarity Sample.stop_words Sample.thread =
    Ok Cases.thread_result ∧
  1 ≤ length (List.filter has_body Sample.thread) ∧
  length (List.filter has_body Sample.thread) ≤ 10 ∧
  most_negative Cases.thread_result = most_positive Cases.thread_result.
Proof.
  split; [exact thread_analysed|].
  assert (H1 : 1 ≤ length (List.filter has_body Sample.thread)) by (vm_compute; lia).
  assert (H2 : length (List.filter has_body Sample.thread) ≤ 10) by (vm_compute; lia).
  split; [exact H1|]. split; [exact H2|].
  exact (proj1 (short_run_repeats_example _ _ _ _ [] [] [] thread_analysed H1 H2)).
Defined.

Lemma run_without_brand_mention_fails_witness :
  (∀ f, Sample.show f = Ok ()) ∧
  analyze_comments Sample.polarity Sample.stop_words Sample.thread =
    Ok Cases.thread_result ∧
  failure (report Sample.polarity Sample.stop_words Sample.show Sample.thread
             [("fans", 4)]) = Some ValueError.
Proof.
  split; [done|]. split; [exact thread_analysed|].
  rewrite (run_without_brand_mention_fails Sample.polarity Sample.stop_words
             Sample.show Sample.thread [("fans", 4)] Cases.thread_result);
    [done | done | exact thread_analysed |].
  intros b body Hb Hbody.
  assert (Hall : Forall (fun b => Forall (fun body => mentions b body = false)
                                    (bodies Sample.thread)) BRANDS).
  { apply (bool_decide_unpack
             (Forall (fun b => Forall (fun body => mentions b body = false)
                                 (bodies Sample.thread)) BRANDS)).
    by vm_compute. }
  rewrite Forall_forall in Hall. specialize (Hall b Hb).
  rewrite Forall_forall in Hall. by apply Hall.
Defined.

Lemma report_completes_iff_witness :
  (∀ f, Sample.show f = Ok ()) ∧
  analyze_comments Sample.polarity Sample.stop_words Cases.owners_thread =
    Ok Cases.owners_result ∧
  failure (report Sample.polarity Sample.stop_words Sample.show Cases.owners_thread
             [("fans", 5)]) = None.
Proof.
  split; [done|]. split; [exact owners_thread_analysed|].
  apply (proj1 (report_completes_iff Sample.polarity Sample.stop_words Sample.show
                  Cases.owners_thread [("fans", 5)] Cases.owners_result
                  ltac:(done) owners_thread_analysed)).
  by vm_compute.
Defined.

Lemma grouped_topics_printed_witness :
  analyze_comments Sample.polarity Sample.stop_words Sample.thread =
    Ok Cases.thread_result ∧
  TopicHeader "Noise" 1 ∈
    print_comments_grouped_by_topic (topic_comments (totals Cases.thread_result)).
Proof.
  split; [exact thread_analysed|].
  apply (proj1 (grouped_topics_printed _ _ _ _ thread_analysed)).
  exists "noise". split; [|by vm_compute].
  apply (bool_decide_unpack ("noise" ∈ topics)). by vm_compute.
Defined.
